(** * Crypto-miner idle game: economy, game state store and sync engine

    A shallow embedding of the TypeScript client:
    - [utils/calculations.ts]  (economy model, offline earnings),
    - [config/partConfigs.ts]  (static part table),
    - [context/GameContext.tsx] (the reducer of the game state store),
    - [api/gameApi.ts]         (fetch / save / queue replay).

    JavaScript's [number] is kept abstract behind the class [JSNumber], with
    two instances: [Exact.exact] (rationals, the arithmetic the written
    specification reasons in) and [Binary64.binary64] (IEEE 754 doubles, the
    arithmetic the program runs in).  Part levels and millisecond timestamps
    are integers in the program and are modelled in [Z]. *)

From Stdlib Require Import ZArith QArith Qround Qpower List String Bool Lia Sorted.
From Stdlib Require Import Lqa Permutation.
From Stdlib Require Import DecimalString.
From Stdlib Require Import Floats.PrimFloat Numbers.Cyclic.Int63.Uint63.
Import ListNotations.

Set Implicit Arguments.
Local Open Scope Z_scope.

(** ** Numbers *)

Declare Scope js_scope.
Delimit Scope js_scope with js.

(** The operations the program performs on [number] values.  [lit n d] is the
    decimal literal [n/d] as the source text writes it ([1.5] is [lit 15 10]);
    [pow] is [Math.pow] at an integer exponent, [floor] is [Math.floor];
    [eqb], [ltb] and [leb] are [===], [<] and [<=]. *)
Class JSNumber (num : Type) : Type := {
  lit : Z -> positive -> num;
  add : num -> num -> num;
  mul : num -> num -> num;
  pow : num -> Z -> num;
  floor : num -> num;
  eqb : num -> num -> bool;
  ltb : num -> num -> bool;
  leb : num -> num -> bool
}.

Definition ofZ {num} `{JSNumber num} (z : Z) : num := lit z 1.

Infix "+" := add : js_scope.
Infix "*" := mul : js_scope.

(** Exact arithmetic: [number] read as a rational. *)
Module Exact.

Definition Qltb (a b : Q) : bool := negb (Qle_bool b a).

#[export] Instance exact : JSNumber Q := {
  lit n d := Qmake n d;
  add := Qplus;
  mul := Qmult;
  pow := Qpower;
  floor q := inject_Z (Qfloor q);
  eqb := Qeq_bool;
  ltb := Qltb;
  leb := Qle_bool
}.

End Exact.

(** Double precision: [number] as the engine stores it.  Addition,
    multiplication, division and the comparisons are the IEEE 754 binary64
    operations of the kernel. *)
Module Binary64.

Definition two52 : float := 0x1p+52%float.

(** The double nearest to an integer of magnitude below 2^63 (timestamps
    and their differences stay far below: a [Date] holds at most 8.64e15). *)
Definition float_of_Z (z : Z) : float :=
  if z <? 0 then PrimFloat.opp (PrimFloat.of_uint63 (Uint63.of_Z (- z)))
  else PrimFloat.of_uint63 (Uint63.of_Z z).

(** [Math.floor]: values of magnitude 2^52 and above are integers already; below,
    adding and removing 2^52 rounds to a neighbouring integer, which is stepped
    down when it lies above the argument.  NaN and the infinities are returned
    as they are. *)
Definition float_floor (x : float) : float :=
  if PrimFloat.ltb (PrimFloat.abs x) two52 then
    if PrimFloat.eqb x 0%float then x
    else
      let r := if PrimFloat.ltb x 0%float
               then PrimFloat.add (PrimFloat.sub x two52) two52
               else PrimFloat.sub (PrimFloat.add x two52) two52 in
      if PrimFloat.ltb x r then PrimFloat.sub r 1%float else r
  else x.

Fixpoint float_pow_pos (x : float) (n : nat) : float :=
  match n with
  | O => 1%float
  | S m => PrimFloat.mul (float_pow_pos x m) x
  end.

(** [Math.pow] at an integer exponent.  ECMAScript fixes [Math.pow(x, 0) = 1],
    and [1 * x] is [x]; at other exponents the result is
    implementation-approximated and repeated multiplication stands for it. *)
Definition float_pow (x : float) (n : Z) : float :=
  match n with
  | Z0 => 1%float
  | Zpos p => float_pow_pos x (Pos.to_nat p)
  | Zneg p => PrimFloat.div 1%float (float_pow_pos x (Pos.to_nat p))
  end.

#[export] Instance binary64 : JSNumber float := {
  lit n d := PrimFloat.div (float_of_Z n) (float_of_Z (Zpos d));
  add := PrimFloat.add;
  mul := PrimFloat.mul;
  pow := float_pow;
  floor := float_floor;
  eqb := PrimFloat.eqb;
  ltb := PrimFloat.ltb;
  leb := PrimFloat.leb
}.

End Binary64.

(** ** Static part configuration ([config/partConfigs.ts]) *)

Inductive PartKey : Set := Cpu | Gpu | Motherboard | Psu | Ram.

Definition allParts : list PartKey := [Cpu; Gpu; Motherboard; Psu; Ram].

Definition PartKey_eqb (a b : PartKey) : bool :=
  match a, b with
  | Cpu, Cpu | Gpu, Gpu | Motherboard, Motherboard | Psu, Psu | Ram, Ram => true
  | _, _ => false
  end.

Section Game.

Context {num : Type} `{JSNumber num}.
Local Open Scope js_scope.

Record PartConfig : Type := {
  maxLevel : Z;
  baseHashRate : num;
  basePrice : num;
  priceMultiplier : num;
  hashRateMultiplier : num
}.

Definition partConfigs (part : PartKey) : PartConfig :=
  match part with
  | Cpu =>
      {| maxLevel := 25; baseHashRate := lit 5 10; basePrice := lit 100 1;
         priceMultiplier := lit 15 10; hashRateMultiplier := lit 12 10 |}
  | Gpu =>
      {| maxLevel := 20; baseHashRate := lit 10 10; basePrice := lit 150 1;
         priceMultiplier := lit 16 10; hashRateMultiplier := lit 13 10 |}
  | Motherboard =>
      {| maxLevel := 15; baseHashRate := lit 3 10; basePrice := lit 80 1;
         priceMultiplier := lit 14 10; hashRateMultiplier := lit 115 100 |}
  | Psu =>
      {| maxLevel := 12; baseHashRate := lit 2 10; basePrice := lit 60 1;
         priceMultiplier := lit 135 100; hashRateMultiplier := lit 11 10 |}
  | Ram =>
      {| maxLevel := 18; baseHashRate := lit 4 10; basePrice := lit 90 1;
         priceMultiplier := lit 145 100; hashRateMultiplier := lit 125 100 |}
  end.

(** ** Game state ([types/game.ts], with the fields the reducer uses) *)

Record Parts : Set := {
  cpu : Z;
  gpu : Z;
  motherboard : Z;
  psu : Z;
  ram : Z
}.

(** [parts[part]] *)
Definition level (parts : Parts) (part : PartKey) : Z :=
  match part with
  | Cpu => cpu parts
  | Gpu => gpu parts
  | Motherboard => motherboard parts
  | Psu => psu parts
  | Ram => ram parts
  end.

(** [{ ...parts, [part]: newLevel }] *)
Definition setLevel (parts : Parts) (part : PartKey) (newLevel : Z) : Parts :=
  match part with
  | Cpu => {| cpu := newLevel; gpu := gpu parts; motherboard := motherboard parts;
              psu := psu parts; ram := ram parts |}
  | Gpu => {| cpu := cpu parts; gpu := newLevel; motherboard := motherboard parts;
              psu := psu parts; ram := ram parts |}
  | Motherboard => {| cpu := cpu parts; gpu := gpu parts; motherboard := newLevel;
                      psu := psu parts; ram := ram parts |}
  | Psu => {| cpu := cpu parts; gpu := gpu parts; motherboard := motherboard parts;
              psu := newLevel; ram := ram parts |}
  | Ram => {| cpu := cpu parts; gpu := gpu parts; motherboard := motherboard parts;
              psu := psu parts; ram := newLevel |}
  end.

(** [Object.entries(parts)]: the keys in insertion order. *)
Definition entries (parts : Parts) : list (PartKey * Z) :=
  map (fun part => (part, level parts part)) allParts.

(** Timestamps are ISO strings in the program ([Date.toISOString], millisecond
    precision); the model keeps the millisecond count they denote. *)
Record GameState : Type := {
  balance : num;
  parts : Parts;
  hashRates : list (string * num);
  lastUpdated : Z;
  isMining : bool;
  totalMined : num;
  miningStartTime : option Z
}.

(** ** Economy model ([utils/calculations.ts]) *)

Definition calculateUpgradeCost (part : PartKey) (currentLevel : Z) : num :=
  let config := partConfigs part in
  floor (basePrice config * pow (priceMultiplier config) currentLevel).

Definition calculateHashRate (part : PartKey) (lvl : Z) : num :=
  let config := partConfigs part in
  baseHashRate config * pow (hashRateMultiplier config) (lvl - 1).

Definition calculateTotalHashRate (parts : Parts) : num :=
  fold_left (fun total '(part, lvl) => total + calculateHashRate part lvl)
            (entries parts) (ofZ 0).

Definition calculateEarningsPerSecond (parts : Parts) : num :=
  let totalHashRate := calculateTotalHashRate parts in
  let earningsMultiplier := lit 10 10 in
  totalHashRate * earningsMultiplier.

Record OfflineEarnings : Type := {
  earnings : num;
  timeOffline : Z
}.

(** [currentTime] and [lastUpdated] are integer millisecond counts, so
    [Math.floor((currentTime - lastUpdated) / 1000)] is the floored integer
    quotient. *)
Definition calculateOfflineEarnings (gameState : GameState) (currentTime : Z)
  : OfflineEarnings :=
  let lastUpdated := lastUpdated gameState in
  let timeOffline := (currentTime - lastUpdated) / 1000 in
  let maxOfflineTime := (24 * 60 * 60)%Z in
  let cappedOfflineTime := Z.min timeOffline maxOfflineTime in
  let earningsPerSecond := calculateEarningsPerSecond (parts gameState) in
  let offlineEfficiencyMultiplier := lit 5 10 in
  let earnings := earningsPerSecond * ofZ cappedOfflineTime * offlineEfficiencyMultiplier in
  {| earnings := floor earnings; timeOffline := cappedOfflineTime |}.

Definition calculateMiningProgress (gameState : GameState) (elapsedSeconds : Z) : num :=
  let earningsPerSecond := calculateEarningsPerSecond (parts gameState) in
  earningsPerSecond * ofZ elapsedSeconds.

Definition isMiningProfitable (parts : Parts) : bool :=
  ltb (ofZ 0) (calculateEarningsPerSecond parts).

(** ** Game state store ([context/GameContext.tsx]) *)

Inductive GameAction : Type :=
| UPDATE_BALANCE (payload : num)
| UPGRADE_PART (part : PartKey) (lvl : Z)
| SET_GAME_STATE (payload : GameState)
| START_MINING
| STOP_MINING
| UPDATE_MINING_PROGRESS
| UPDATE_OFFLINE_PROGRESS (earnings : num) (timeOffline : Z)
| SHOW_OFFLINE_EARNINGS (earnings : num) (timeOffline : Z).

Definition initialState (now : Z) : GameState :=
  {| balance := ofZ 0;
     parts := {| cpu := 1; gpu := 1; motherboard := 1; psu := 1; ram := 1 |};
     hashRates := [("cpu"%string, lit 5 10); ("gpu"%string, lit 10 10);
                   ("motherboard"%string, lit 3 10); ("psu"%string, lit 2 10);
                   ("ram"%string, lit 4 10)];
     lastUpdated := now;
     isMining := false;
     totalMined := ofZ 0;
     miningStartTime := None |}.

(** The reducer; [now] is the clock reading [new Date()] takes. *)
Definition gameReducer (state : GameState) (action : GameAction) (now : Z) : GameState :=
  match action with
  | UPDATE_BALANCE payload =>
      {| balance := payload; parts := parts state; hashRates := hashRates state;
         lastUpdated := now; isMining := isMining state;
         totalMined := totalMined state; miningStartTime := miningStartTime state |}
  | UPGRADE_PART part lvl =>
      {| balance := balance state; parts := setLevel (parts state) part lvl;
         hashRates := hashRates state; lastUpdated := now;
         isMining := isMining state; totalMined := totalMined state;
         miningStartTime := miningStartTime state |}
  | SET_GAME_STATE payload =>
      {| balance := balance payload; parts := parts payload;
         hashRates := hashRates payload; lastUpdated := now;
         isMining := isMining payload; totalMined := totalMined payload;
         miningStartTime := miningStartTime payload |}
  | START_MINING =>
      {| balance := balance state; parts := parts state; hashRates := hashRates state;
         lastUpdated := lastUpdated state; isMining := true;
         totalMined := totalMined state; miningStartTime := Some now |}
  | STOP_MINING =>
      {| balance := balance state; parts := parts state; hashRates := hashRates state;
         lastUpdated := now; isMining := false;
         totalMined := totalMined state; miningStartTime := None |}
  | UPDATE_MINING_PROGRESS =>
      let earnings := calculateMiningProgress state 1 in
      {| balance := balance state + earnings; parts := parts state;
         hashRates := hashRates state; lastUpdated := now;
         isMining := isMining state; totalMined := totalMined state + earnings;
         miningStartTime := miningStartTime state |}
  | UPDATE_OFFLINE_PROGRESS earnings _ =>
      {| balance := balance state + earnings; parts := parts state;
         hashRates := hashRates state; lastUpdated := now;
         isMining := isMining state; totalMined := totalMined state + earnings;
         miningStartTime := miningStartTime state |}
  | SHOW_OFFLINE_EARNINGS _ _ => state
  end.

(** [n] dispatches of one action, the clock read at [now], [now + 1000], ... *)
Fixpoint dispatchTimes (n : nat) (action : GameAction) (state : GameState) (now : Z)
  : GameState :=
  match n with
  | O => state
  | S k => dispatchTimes k action (gameReducer state action now) (now + 1000)%Z
  end.

(** The dispatches of the provider's initial-load effect once [fetchGameState]
    has brought [data]: the state is replaced, and offline earnings are applied
    and announced when they are positive and were not announced before. *)
Definition initialLoadActions (data : GameState) (currentTime : Z)
    (offlineNotificationShown : bool) : list GameAction :=
  let offline := calculateOfflineEarnings data currentTime in
  SET_GAME_STATE data
    :: (if ltb (ofZ 0) (earnings offline) && negb offlineNotificationShown
        then [UPDATE_OFFLINE_PROGRESS (earnings offline) (timeOffline offline);
              SHOW_OFFLINE_EARNINGS (earnings offline) (timeOffline offline)]
        else []).

End Game.

Arguments PartConfig : clear implicits.
Arguments GameState : clear implicits.
Arguments GameAction : clear implicits.
Arguments OfflineEarnings : clear implicits.


(** ** Sync engine ([api/gameApi.ts])

    The module keeps its state in the browser: two [localStorage] slots (the
    token and the cached game state), [navigator.onLine], the clock and the
    module-level [operationQueue].  The model threads them through a record
    [World], together with the answers the network will give and a trace of the
    effects performed.  [async] functions become state-and-exception
    computations [Async]. *)

Definition STORAGE_KEY : string := "crypto_miner_state".
Definition API_BASE_URL : string := "http://localhost:3000".
Definition API_TIMEOUT : Z := 5000.
Definition SAVE_DEBOUNCE_TIME : Z := 5000.
Definition MAX_RETRY_ATTEMPTS : nat := 3.

(** [String(n)] for an integer [n]. *)
Definition String_of_Z (n : Z) : string := NilZero.string_of_int (Z.to_int n).

Inductive Exn : Set :=
| AxiosError (response : option Z) (message : string)
| Error (message : string)
| ZodError (message : string)
| SyntaxError (message : string).

(** [axios.isAxiosError(error) && !error.response] *)
Definition noResponse (error : Exn) : bool :=
  match error with
  | AxiosError None _ => true
  | _ => false
  end.

(** [axios.isAxiosError(error) && error.response?.status === status] *)
Definition statusIs (status : Z) (error : Exn) : bool :=
  match error with
  | AxiosError (Some actual) _ => actual =? status
  | _ => false
  end.

(** [error instanceof Error ? error.message : fallback]; every exception the
    module can see is an [Error]. *)
Definition messageOf (error : Exn) : string :=
  match error with
  | AxiosError _ message | Error message | ZodError message | SyntaxError message => message
  end.

Record ApiResponse (T : Type) : Type := {
  success : bool;
  data : option T;
  error : option string;
  warning : option string
}.

Arguments success {T} _.
Arguments data {T} _.
Arguments error {T} _.
Arguments warning {T} _.

Definition succeeded {T} (d : option T) : ApiResponse T :=
  {| success := true; data := d; error := None; warning := None |}.

Definition queued {T} (message : string) : ApiResponse T :=
  {| success := true; data := None; error := None; warning := Some message |}.

Definition failed {T} (message : string) : ApiResponse T :=
  {| success := false; data := None; error := Some message; warning := None |}.

Inductive Completion (A : Type) : Type :=
| Normal (a : A)
| Thrown (e : Exn).

Arguments Normal {A} _.
Arguments Thrown {A} _.

Section Sync.

Context {num : Type}.

Record GameStateWithVersion : Type := {
  fields : GameState num;
  version : Z
}.

(** A JSON value, as far as [GameStateSchema] tells values apart: an object
    carrying every required field (its [version] possibly missing), or
    anything else. *)
Inductive Json : Type :=
| JsonState (s : GameState num) (v : option Z)
| JsonOther.

(** The text of a [localStorage] slot. *)
Inductive StoredText : Type :=
| JsonText (j : Json)
| NotJson
| EmptyText.

(** [GameStateSchema.parse]; [version] defaults to 0.  [None] stands for the
    [ZodError] it throws. *)
Definition GameStateSchema_parse (j : Json) : option GameStateWithVersion :=
  match j with
  | JsonState s v =>
      Some {| fields := s; version := match v with Some n => n | None => 0 end |}
  | JsonOther => None
  end.

Definition JSON_stringify (state : GameStateWithVersion) : StoredText :=
  JsonText (JsonState (fields state) (Some (version state))).

Inductive Operation : Type :=
| save (data : GameStateWithVersion)
| upgrade (part : PartKey) (lvl : Z)
| balanceOp (data : num).

(** [ident] is the identity of the object: [processQueue] removes a replayed
    operation by reference ([op !== operation]). *)
Record QueuedOperation : Type := {
  ident : nat;
  op : Operation;
  timestamp : Z
}.

Inductive Request : Type :=
| GET (url : string) (Authorization : string)
| POST (url : string) (Authorization : string) (If_Match : string)
       (gameState : GameStateWithVersion).

Inductive Reply : Type :=
| NoReply (message : string)
| Response (status : Z) (body : Json).

Inductive Event : Type :=
| Sent (request : Request)
| Waited (ms : Z)
| Cached (text : StoredText).

(** The browser as the module sees it.  [network] lists the reply to each
    request in the order the requests go out and [sent] counts the requests
    so far; [created] counts the queue objects created so far; [trace] lists the
    effects performed, oldest first. *)
Record World : Type := {
  token : option string;
  savedState : option StoredText;
  operationQueue : list QueuedOperation;
  onLine : bool;
  clock : Z;
  network : nat -> Reply;
  sent : nat;
  created : nat;
  trace : list Event
}.

Definition Async (A : Type) : Type := World -> Completion A * World.

Definition ret {A} (a : A) : Async A := fun w => (Normal a, w).

Definition throw {A} (e : Exn) : Async A := fun w => (Thrown e, w).

Definition bind {A B} (m : Async A) (k : A -> Async B) : Async B :=
  fun w =>
    match m w with
    | (Normal a, w') => k a w'
    | (Thrown e, w') => (Thrown e, w')
    end.

(** [try { m } catch (error) { handler }] *)
Definition try_catch {A} (m : Async A) (handler : Exn -> Async A) : Async A :=
  fun w =>
    match m w with
    | (Normal a, w') => (Normal a, w')
    | (Thrown e, w') => handler e w'
    end.

Notation "x <- m ;; k" := (bind m (fun x => k))
  (at level 61, m at next level, right associativity).
Notation "m ;; k" := (bind m (fun _ => k))
  (at level 61, right associativity).

(** *** The browser *)

Definition record (ev : Event) (w : World) : World :=
  {| token := token w; savedState := savedState w;
     operationQueue := operationQueue w; onLine := onLine w; clock := clock w;
     network := network w; sent := sent w; created := created w;
     trace := trace w ++ [ev] |}.

Definition store (text : StoredText) (w : World) : World :=
  {| token := token w; savedState := Some text;
     operationQueue := operationQueue w; onLine := onLine w; clock := clock w;
     network := network w; sent := sent w; created := created w;
     trace := trace w |}.

Definition elapse (ms : Z) (w : World) : World :=
  {| token := token w; savedState := savedState w;
     operationQueue := operationQueue w; onLine := onLine w; clock := clock w + ms;
     network := network w; sent := sent w; created := created w;
     trace := trace w |}.

Definition answer (w : World) : World :=
  {| token := token w; savedState := savedState w;
     operationQueue := operationQueue w; onLine := onLine w; clock := clock w;
     network := network w; sent := S (sent w); created := created w;
     trace := trace w |}.

Definition push (o : Operation) (w : World) : World :=
  {| token := token w; savedState := savedState w;
     operationQueue :=
       operationQueue w ++ [{| ident := created w; op := o; timestamp := clock w |}];
     onLine := onLine w; clock := clock w;
     network := network w; sent := sent w; created := S (created w);
     trace := trace w |}.

Definition drop (operation : QueuedOperation) (w : World) : World :=
  {| token := token w; savedState := savedState w;
     operationQueue :=
       filter (fun o => negb (Nat.eqb (ident o) (ident operation))) (operationQueue w);
     onLine := onLine w; clock := clock w;
     network := network w; sent := sent w; created := created w;
     trace := trace w |}.

(** The value a failed [!t] test lets through: the empty string is as absent
    as [null]. *)
Definition truthy (t : option string) : option string :=
  match t with
  | Some EmptyString => None
  | _ => t
  end.

(** [localStorage.getItem('token')], read for the [!token] test. *)
Definition getToken : Async (option string) :=
  fun w => (Normal (truthy (token w)), w).

(** [localStorage.getItem(STORAGE_KEY)] *)
Definition getItem : Async (option StoredText) :=
  fun w => (Normal (savedState w), w).

(** [localStorage.setItem(STORAGE_KEY, text)] *)
Definition setItem (text : StoredText) : Async unit :=
  fun w => (Normal tt, record (Cached text) (store text w)).

Definition navigator_onLine : Async bool :=
  fun w => (Normal (onLine w), w).

(** [await new Promise(resolve => setTimeout(resolve, delay))] *)
Definition sleep (delay : Z) : Async unit :=
  fun w => (Normal tt, record (Waited delay) (elapse (Z.max 0 delay) w)).

(** What axios makes of a reply: a 2xx response resolves with its body, any
    other response rejects with an error that carries the response, and no
    reply (connection failure, timeout) rejects with an error that carries
    none. *)
Definition settle (reply : Reply) : Completion Json :=
  match reply with
  | NoReply message => Thrown (AxiosError None message)
  | Response status body =>
      if (200 <=? status) && (status <? 300) then Normal body
      else Thrown (AxiosError (Some status)
                     ("Request failed with status code " ++ String_of_Z status))
  end.

(** [axios.get] / [axios.post]: the request goes out and the next reply of
    the network settles it. *)
Definition axios (request : Request) : Async Json :=
  fun w => (settle (network w (sent w)), record (Sent request) (answer w)).

(** [operationQueue.push({ type, data, timestamp: Date.now() })] *)
Definition enqueue (o : Operation) : Async unit :=
  fun w => (Normal tt, push o w).

(** [operationQueue = operationQueue.filter(op => op !== operation)] *)
Definition dequeue (operation : QueuedOperation) : Async unit :=
  fun w => (Normal tt, drop operation w).

(** *** The module *)

Fixpoint retryWithBackoff {A} (operation : Async A) (retries : nat) : Async A :=
  try_catch operation
    (fun error =>
       match retries with
       | S retries' =>
           if noResponse error then
             let delay :=
               Z.min (1000 * (Z.of_nat MAX_RETRY_ATTEMPTS - Z.of_nat retries + 1)) 5000 in
             sleep delay ;;
             retryWithBackoff operation retries'
           else throw error
       | O => throw error
       end).

(** [[...queue].sort((a, b) => a.timestamp - b.timestamp)]: the engine's sort
    is stable, and so is this insertion sort. *)
Fixpoint insertByTimestamp (x : QueuedOperation) (l : list QueuedOperation)
  : list QueuedOperation :=
  match l with
  | [] => [x]
  | y :: l' =>
      if timestamp x <=? timestamp y then x :: l
      else y :: insertByTimestamp x l'
  end.

Definition sortByTimestamp (queue : list QueuedOperation) : list QueuedOperation :=
  fold_right insertByTimestamp [] queue.

Definition fetchGameState : Async (ApiResponse GameStateWithVersion) :=
  try_catch
    (token <- getToken ;;
     match token with
     | None => throw (Error "No authentication token found")
     | Some token =>
         response <- retryWithBackoff
                       (axios (GET (API_BASE_URL ++ "/game/load") ("Bearer " ++ token)))
                       MAX_RETRY_ATTEMPTS ;;
         match GameStateSchema_parse response with
         | None => throw (ZodError "Invalid input")
         | Some validatedState =>
             setItem (JSON_stringify validatedState) ;;
             ret (succeeded (Some validatedState))
         end
     end)
    (fun error =>
       let otherwise : Async (ApiResponse GameStateWithVersion) :=
         if statusIs 401 error then ret (failed "Authentication required")
         else ret (failed (messageOf error)) in
       if noResponse error then
         savedState <- getItem ;;
         match savedState with
         | Some (JsonText j) =>
             match GameStateSchema_parse j with
             | Some parsedState => ret (succeeded (Some parsedState))
             | None => ret (failed "Invalid stored game state")
             end
         | Some NotJson => ret (failed "Invalid stored game state")
         | Some EmptyText | None => otherwise
         end
       else otherwise).

(** The function handed to lodash's [debounce].  The wrapper decides when, and
    for which call of a burst, it runs (5 s after the last call, 30 s at
    most).  This section runs the function at the call and hands its result
    to the caller, which is what the wrapper does when a pending timer is
    overdue; [Timed.saveProgress], further down, puts the wrapper in
    between. *)
Definition debouncedSave (state : GameStateWithVersion) : Async (ApiResponse unit) :=
  try_catch
    (token <- getToken ;;
     match token with
     | None => throw (Error "No authentication token found")
     | Some token =>
         retryWithBackoff
           (axios (POST (API_BASE_URL ++ "/game/save") ("Bearer " ++ token)
                        (String_of_Z (version state)) state))
           MAX_RETRY_ATTEMPTS ;;
         setItem (JSON_stringify state) ;;
         ret (succeeded None)
     end)
    (fun error =>
       online <- navigator_onLine ;;
       if negb online then
         enqueue (save state) ;;
         ret (queued "Changes queued for sync")
       else ret (failed (messageOf error))).

Definition saveProgress (state : GameState num) : Async (ApiResponse unit) :=
  try_catch
    (currentState <- fetchGameState ;;
     match success currentState, data currentState with
     | true, Some current =>
         let serverVersion := version current in
         let newState := {| fields := state; version := serverVersion + 1 |} in
         debouncedSave newState
     | _, _ => ret (failed "Failed to fetch current state")
     end)
    (fun error => ret (failed (messageOf error))).

Definition withParts (state : GameStateWithVersion) (ps : Parts) : GameStateWithVersion :=
  {| fields :=
       {| balance := balance (fields state); parts := ps;
          hashRates := hashRates (fields state);
          lastUpdated := lastUpdated (fields state);
          isMining := isMining (fields state);
          totalMined := totalMined (fields state);
          miningStartTime := miningStartTime (fields state) |};
     version := version state |}.

Definition withBalance (state : GameStateWithVersion) (b : num) : GameStateWithVersion :=
  {| fields :=
       {| balance := b; parts := parts (fields state);
          hashRates := hashRates (fields state);
          lastUpdated := lastUpdated (fields state);
          isMining := isMining (fields state);
          totalMined := totalMined (fields state);
          miningStartTime := miningStartTime (fields state) |};
     version := version state |}.

Definition upgradePart (part : PartKey) (newLevel : Z) : Async (ApiResponse unit) :=
  try_catch
    (currentState <- fetchGameState ;;
     match success currentState, data currentState with
     | true, Some current =>
         let updatedState :=
           withParts current (setLevel (parts (fields current)) part newLevel) in
         setItem (JSON_stringify updatedState) ;;
         online <- navigator_onLine ;;
         if negb online then
           enqueue (upgrade part newLevel) ;;
           ret (queued "Upgrade queued for sync")
         else saveProgress (fields updatedState)
     | _, _ => ret (failed "Failed to fetch current state")
     end)
    (fun error => ret (failed (messageOf error))).

Definition updateBalance (newBalance : num) : Async (ApiResponse unit) :=
  try_catch
    (currentState <- fetchGameState ;;
     match success currentState, data currentState with
     | true, Some current =>
         let updatedState := withBalance current newBalance in
         setItem (JSON_stringify updatedState) ;;
         online <- navigator_onLine ;;
         if negb online then
           enqueue (balanceOp newBalance) ;;
           ret (queued "Balance update queued for sync")
         else saveProgress (fields updatedState)
     | _, _ => ret (failed "Failed to fetch current state")
     end)
    (fun error => ret (failed (messageOf error))).

(** The [switch] of [processQueue] on [operation.type]: the operation is
    invoked again with [operation.data]. *)
Definition replay (o : Operation) : Async (ApiResponse unit) :=
  match o with
  | save data => saveProgress (fields data)
  | upgrade part lvl => upgradePart part lvl
  | balanceOp data => updateBalance data
  end.

(** The [for ... of] loop of [processQueue]; [break] leaves it. *)
Fixpoint processQueue_loop (sortedQueue : list QueuedOperation) : Async unit :=
  match sortedQueue with
  | [] => ret tt
  | operation :: rest =>
      continue <- try_catch
                    (replay (op operation) ;;
                     dequeue operation ;;
                     ret true)
                    (fun error => ret false) ;;
      if continue then processQueue_loop rest else ret tt
  end.

Definition processQueue : Async unit :=
  fun w =>
    if negb (onLine w) || (Nat.eqb (List.length (operationQueue w)) 0) then (Normal tt, w)
    else processQueue_loop (sortByTimestamp (operationQueue w)) w.

End Sync.

Arguments GameStateWithVersion : clear implicits.
Arguments World : clear implicits.
Arguments QueuedOperation : clear implicits.
Arguments Json : clear implicits.

(** ** Vocabulary of the statements *)

Section SyncVocabulary.

Context {num : Type}.

Definition isNoReply (reply : @Reply num) : bool :=
  match reply with
  | NoReply _ => true
  | Response _ _ => false
  end.

(** How many of the next [bound] requests go unanswered before the first
    reply arrives. *)
Fixpoint unanswered (net : nat -> @Reply num) (from bound : nat) : nat :=
  match bound with
  | O => O
  | S bound' =>
      if isNoReply (net from) then S (unanswered net (S from) bound') else O
  end.

(** The waits and re-sends of [k] retries, the first of them being retry
    number [attempt]. *)
Fixpoint retryEvents (request : @Request num) (attempt : Z) (k : nat) : list (@Event num) :=
  match k with
  | O => []
  | S k' =>
      Waited (Z.min (1000 * attempt) 5000) :: Sent request
        :: retryEvents request (attempt + 1) k'
  end.

(** What an operation may not touch unless it says so. *)
Definition sameBrowser (w w' : World num) : Prop :=
  token w' = token w /\ onLine w' = onLine w /\ network w' = network w.

Definition sameQueue (w w' : World num) : Prop :=
  operationQueue w' = operationQueue w /\ created w' = created w.

Definition isWrite (ev : @Event num) : bool :=
  match ev with
  | Sent (POST _ _ _ _) => true
  | _ => false
  end.

(** The event is no remote write, or it is the write of [state] under
    [If-Match: String(state.version)]. *)
Definition writesOnly (state : GameStateWithVersion num) (ev : @Event num) : Prop :=
  match ev with
  | Sent (POST url _ If_Match body) =>
      url = (API_BASE_URL ++ "/game/save")%string
      /\ body = state /\ If_Match = String_of_Z (version state)
  | Sent (GET _ _) => False
  | _ => True
  end.

(** The two requests the module sends. *)
Definition loadRequest (tok : string) : @Request num :=
  GET (API_BASE_URL ++ "/game/load") ("Bearer " ++ tok).

Definition saveRequest (tok : string) (state : GameStateWithVersion num) : @Request num :=
  POST (API_BASE_URL ++ "/game/save") ("Bearer " ++ tok) (String_of_Z (version state)) state.

(** [{ ...state, version: serverVersion + 1 }] *)
Definition nextVersion (state : GameState num) (current : GameStateWithVersion num)
  : GameStateWithVersion num :=
  {| fields := state; version := version current + 1 |}.

(** The state an optimistic operation writes to the cache: the loaded state
    with the part level, or the balance, replaced. *)
Definition optimisticState (o : @Operation num) (current : GameStateWithVersion num)
  : GameStateWithVersion num :=
  match o with
  | save data => data
  | upgrade part lvl => withParts current (setLevel (parts (fields current)) part lvl)
  | balanceOp b => withBalance current b
  end.

Definition isOptimistic (o : @Operation num) : bool :=
  match o with
  | save _ => false
  | _ => true
  end.

Definition queuedMessage (o : @Operation num) : string :=
  match o with
  | save _ => "Changes queued for sync"
  | upgrade _ _ => "Upgrade queued for sync"
  | balanceOp _ => "Balance update queued for sync"
  end.

(** Some operation of [l] is the object [o]. *)
Definition replayed (l : list (QueuedOperation num)) (o : QueuedOperation num) : bool :=
  existsb (fun x => Nat.eqb (ident o) (ident x)) l.

End SyncVocabulary.

(** ** Vocabulary of the statements on the economy and the store *)

Import Exact Binary64.

(** The state the accrual scenario starts from: the initial state, mining. *)
Definition miningState {num} `{JSNumber num} : GameState num :=
  gameReducer (initialState 0) START_MINING 0.

(** The levels [1 .. m]. *)
Definition levelsUpTo (m : Z) : list Z := map Z.of_nat (seq 1 (Z.to_nat m)).

(** [f l1 < f l2] for all [l1 < l2] of [levels]. *)
Definition increasingOn {num} `{JSNumber num} (f : Z -> num) (levels : list Z) : bool :=
  forallb
    (fun l1 => forallb (fun l2 => implb (l1 <? l2) (ltb (f l1) (f l2))) levels)
    levels.

(** Every level is at most the configured maximum of its part. *)
Definition levelsWithinMax (ps : Parts) : Prop :=
  forall part, level ps part <= maxLevel (partConfigs (num:=Q) part).

(** The preconditions the callers of the store keep, per transition;
    [SET_GAME_STATE] is left out of the invariant. *)
Definition precondition (state : GameState Q) (action : GameAction Q) : Prop :=
  match action with
  | UPGRADE_PART part newLevel =>
      newLevel = level (parts state) part + 1
      /\ newLevel <= maxLevel (partConfigs (num:=Q) part)
  | UPDATE_OFFLINE_PROGRESS earnings _ => (0 <= earnings)%Q
  | SET_GAME_STATE _ => False
  | _ => True
  end.

(** ** Scenarios: concrete browsers and networks *)

Module Scenario.

Definition serverState : GameStateWithVersion Q :=
  {| fields := initialState 0; version := 7 |}.

Definition localState : GameState Q :=
  gameReducer (initialState 0) (UPDATE_BALANCE 42%Q) 9000.

(** A network that gives the listed replies in turn and none afterwards. *)
Definition scripted (replies : list (@Reply Q)) (n : nat) : @Reply Q :=
  nth n replies (NoReply "Network Error").

Definition browser (online : bool) (cache : option (@StoredText Q))
    (queue : list (QueuedOperation Q)) (replies : list (@Reply Q)) : World Q :=
  {| token := Some "secret"%string; savedState := cache; operationQueue := queue;
     onLine := online; clock := 5000; network := scripted replies; sent := 0;
     created := List.length queue; trace := [] |}.

Definition loaded : @Reply Q := Response 200 (JsonState (fields serverState) (Some 7)).
Definition accepted : @Reply Q := Response 200 JsonOther.
Definition conflict : @Reply Q := Response 412 JsonOther.
Definition unauthorized : @Reply Q := Response 401 JsonOther.
Definition serverError : @Reply Q := Response 500 JsonOther.
Definition dropped : @Reply Q := NoReply "Network Error".

Definition first : QueuedOperation Q :=
  {| ident := 0; op := upgrade Cpu 2; timestamp := 100 |}.
Definition second : QueuedOperation Q :=
  {| ident := 1; op := balanceOp 50%Q; timestamp := 200 |}.
Definition third : QueuedOperation Q :=
  {| ident := 2; op := save {| fields := localState; version := 8 |}; timestamp := 300 |}.

End Scenario.

(** * The rest of the client

    Functions of the same source files that the statements above did not
    need: the remaining helpers of [utils/calculations.ts], the batch upgrade
    of [api/gameApi.ts], and the upgrade button of [components/MiningRig.tsx]
    that drives the store. *)

(** Subtraction and division on [number].  Exact division by zero gives 0
    where the program gets an infinity or NaN; the statements below use it
    at non-zero divisors only. *)
Class JSArith (num : Type) : Type := {
  sub : num -> num -> num;
  div : num -> num -> num
}.

Infix "-" := sub : js_scope.
Infix "/" := div : js_scope.

#[export] Instance exactArith : JSArith Q := {
  sub := Qminus;
  div := Qdiv
}.

#[export] Instance binary64Arith : JSArith float := {
  sub := PrimFloat.sub;
  div := PrimFloat.div
}.

Section Client.

Context {num : Type} `{JSNumber num} `{JSArith num}.
Local Open Scope js_scope.

(** ** [utils/calculations.ts], continued *)

Record PartEfficiency : Type := {
  hashPerCost : num
}.

Definition calculatePartEfficiency (part : PartKey) (lvl : Z) : PartEfficiency :=
  let hashRate := calculateHashRate part lvl in
  let cost := calculateUpgradeCost part lvl in
  {| hashPerCost := hashRate / cost |}.

(** ** The upgrade button ([components/MiningRig.tsx]) *)

(** [level >= config.maxLevel] *)
Definition isMaxLevel (part : PartKey) (lvl : Z) : bool :=
  maxLevel (partConfigs part) <=? lvl.

(** [balance >= upgradeCost] *)
Definition canAfford (part : PartKey) (lvl : Z) (balance : num) : bool :=
  leb (calculateUpgradeCost part lvl) balance.

(** [handleUpgrade]: the actions it dispatches, in order.  The new balance is
    computed from the balance the handler was rendered with. *)
Definition handleUpgrade (state : GameState num) (part : PartKey) : list (GameAction num) :=
  let upgradeCost := calculateUpgradeCost part (level (parts state) part) in
  if leb upgradeCost (balance state) then
    [UPGRADE_PART part (level (parts state) part + 1)%Z;
     UPDATE_BALANCE (balance state - upgradeCost)]
  else [].

(** A click on the button of [part]: the button is disabled at the maximum
    level and when the balance does not cover the cost. *)
Definition clickUpgrade (state : GameState num) (part : PartKey) : list (GameAction num) :=
  let lvl := level (parts state) part in
  if isMaxLevel part lvl || negb (canAfford part lvl (balance state)) then []
  else handleUpgrade state part.

(** Dispatching a list of actions in order, the clock read at [now]. *)
Definition dispatchAll (actions : list (GameAction num)) (state : GameState num) (now : Z)
  : GameState num :=
  fold_left (fun s action => gameReducer s action now) actions state.

End Client.

Arguments PartEfficiency : clear implicits.

(** ** Durations ([formatTime], and [miningTime] of the provider)

    The argument is a number of seconds; the provider passes a difference of
    millisecond timestamps divided by 1000, which a rational holds exactly. *)

(** [a % m] for a positive [m]: the remainder has the sign of [a]. *)
Definition Qrem (a m : Q) : Q :=
  let quotient := if Qle_bool 0 a then Qfloor (a / m) else Qceiling (a / m) in
  (a - m * inject_Z quotient)%Q.

Definition formatTime (seconds : Q) : string :=
  if Exact.Qltb seconds 60 then String_of_Z (Qfloor seconds) ++ "s"
  else if Exact.Qltb seconds 3600 then
    let minutes := Qfloor (seconds / 60) in
    String_of_Z minutes ++ "m " ++ String_of_Z (Qfloor (Qrem seconds 60)) ++ "s"
  else
    let hours := Qfloor (seconds / 3600) in
    let minutes := Qfloor (Qrem seconds 3600 / 60) in
    String_of_Z hours ++ "h " ++ String_of_Z minutes ++ "m".

(** [miningTime] of [GameProvider], the clock read at [now]. *)
Definition miningTime (state : GameState Q) (now : Z) : string :=
  match miningStartTime state with
  | Some start => formatTime (Qmake (now - start) 1000)
  | None => "0s"
  end.

(** ** Batch upgrade ([upgradeMultipleParts] of [api/gameApi.ts]) *)

Section Batch.

Context {num : Type}.

(** [{ ...parts, ...Object.fromEntries(upgrades.map(({part, level}) => [part, level])) }]:
    a later entry for a part replaces an earlier one. *)
Definition applyUpgrades (ps : Parts) (upgrades : list (PartKey * Z)) : Parts :=
  fold_left (fun acc '(part, lvl) => setLevel acc part lvl) upgrades ps.

Definition upgradeMultipleParts (upgrades : list (PartKey * Z))
  : @Async num (ApiResponse unit) :=
  try_catch
    (bind fetchGameState (fun currentState =>
     match success currentState, data currentState with
     | true, Some current =>
         let updatedState :=
           withParts current (applyUpgrades (parts (fields current)) upgrades) in
         saveProgress (fields updatedState)
     | _, _ => ret (failed "Failed to fetch current state")
     end))
    (fun error => ret (failed (messageOf error))).

(** *** Vocabulary *)

(** The level the last entry for [part] asks for, if any. *)
Definition lastRequested (upgrades : list (PartKey * Z)) (part : PartKey) : option Z :=
  fold_left (fun found '(p, lvl) => if PartKey_eqb p part then Some lvl else found)
            upgrades None.

(** The time the waits of [k] retries take, the first of them being retry
    number [attempt]. *)
Fixpoint waitSum (attempt : Z) (k : nat) : Z :=
  match k with
  | O => 0
  | S k' => Z.max 0 (Z.min (1000 * attempt) 5000) + waitSum (attempt + 1) k'
  end.

(** The network stays silent for a whole round of attempts from position
    [from]. *)
Definition silent (net : nat -> @Reply num) (from : nat) : Prop :=
  forall i, (i <= MAX_RETRY_ATTEMPTS)%nat -> isNoReply (net (from + i)%nat) = true.

End Batch.

(** The whole seconds [t] as [formatTime] shows a duration. *)
Definition formatWholeSeconds (t : Z) : string :=
  if t <? 60 then String_of_Z t ++ "s"
  else if t <? 3600 then String_of_Z (t / 60) ++ "m " ++ String_of_Z (t mod 60) ++ "s"
  else String_of_Z (t / 3600) ++ "h " ++ String_of_Z (t mod 3600 / 60) ++ "m".

(** Every level is at least 1, the level a part starts at. *)
Definition levelsFromOne (ps : Parts) : Prop :=
  forall part, 1 <= level ps part.

(** [miningStartTime] is present exactly while mining. *)
Definition miningConsistent {num} (state : GameState num) : Prop :=
  isMining state = true <-> miningStartTime state <> None.

(** ** More concrete browsers *)

Module Cases.

Import Scenario.

(** A browser with the given token, or none. *)
Definition browserOf (tok : option string) (online : bool) (cache : option (@StoredText Q))
    (replies : list (@Reply Q)) : World Q :=
  {| token := tok; savedState := cache; operationQueue := [];
     onLine := online; clock := 5000; network := scripted replies; sent := 0;
     created := 0; trace := [] |}.

Definition serverCopy : @StoredText Q := JSON_stringify serverState.

Definition twin (n : nat) : QueuedOperation Q :=
  {| ident := n; op := balanceOp 50%Q; timestamp := 200 |}.

End Cases.

(** ** lodash's [debounce], and the save as the module wires it

    [api/gameApi.ts] does not call the write of a save directly: its
    [debouncedSave] is [debounce(write, SAVE_DEBOUNCE_TIME, { maxWait: 30000 })],
    where [write] is the async function that section [Sync] models under the
    name [debouncedSave] and runs at the call.  This part models the wrapper
    that lodash puts around it, after [debounce.js] of lodash 4.17: the
    variables it closes over, the decision [shouldInvoke], the timer callback
    [timerExpired] and the wrapper [debounced] itself.  A timer is kept as the
    time at which it is due; [dueTimer] is the browser running its callback.
    The function is [async]: what an invocation hands back is a promise, kept
    as the completion it settles with; as every function of the module does
    in this model, an invocation runs to its end before anything else
    happens. *)

Record Options : Type := {
  leading : bool;
  maxWait : option Z;
  trailing : bool
}.

Section Debounce.

Context {num : Type}.
Variables A R : Type.

(** [lastArgs], [result], [timerId], [lastCallTime], [lastInvokeTime] *)
Record Debounced : Type := {
  lastArgs : option A;
  result : option (Completion R);
  timerId : option Z;
  lastCallTime : option Z;
  lastInvokeTime : Z
}.

(** [var lastArgs, result, timerId, lastCallTime, lastInvokeTime = 0] *)
Definition newDebounced : Debounced :=
  {| lastArgs := None; result := None; timerId := None; lastCallTime := None;
     lastInvokeTime := 0 |}.

(** Code that runs with the wrapper's variables in reach. *)
Definition Timed (T : Type) : Type :=
  Debounced -> @World num -> Completion T * Debounced * @World num.

Definition outcome {T} (run : Completion T * Debounced * @World num) : Completion T :=
  fst (fst run).

Definition wrapper {T} (run : Completion T * Debounced * @World num) : Debounced :=
  snd (fst run).

Definition world {T} (run : Completion T * Debounced * @World num) : @World num :=
  snd run.

Definition unit_ {T} (a : T) : Timed T := fun d w => (Normal a, d, w).

Definition then_ {T U} (m : Timed T) (k : T -> Timed U) : Timed U :=
  fun d w =>
    match m d w with
    | (Normal a, d', w') => k a d' w'
    | (Thrown e, d', w') => (Thrown e, d', w')
    end.

Definition catch_ {T} (m : Timed T) (handler : Exn -> Timed T) : Timed T :=
  fun d w =>
    match m d w with
    | (Normal a, d', w') => (Normal a, d', w')
    | (Thrown e, d', w') => handler e d' w'
    end.

(** Code of the module that does not touch the wrapper. *)
Definition lift {T} (m : @Async num T) : Timed T :=
  fun d w => let '(c, w') := m w in (c, d, w').

(** What an [async] function that returns the wrapper's value resolves with:
    [undefined] as it is, a promise as it settles. *)
Definition resolved (returned : option (Completion R)) : Completion (option R) :=
  match returned with
  | None => Normal None
  | Some (Normal r) => Normal (Some r)
  | Some (Thrown e) => Thrown e
  end.

Definition adopt (returned : option (Completion R)) : Timed (option R) :=
  fun d w => (resolved returned, d, w).

Variable func : A -> @Async num R.
Variable wait : Z.
Variable options : Options.

(** [maxing ? nativeMax(toNumber(options.maxWait) || 0, wait) : maxWait];
    [None] when [options] has no [maxWait]. *)
Definition maxing : option Z := option_map (Z.max wait) (maxWait options).

(** [setTimeout(callback, delay)] at time [time]: a delay below 0 counts as 0. *)
Definition setTimeout (delay time : Z) : option Z := Some (time + Z.max 0 delay).

(** [args] is [lastArgs], which every caller has found set. *)
Definition invokeFunc (args : A) (time : Z) : Timed (option (Completion R)) :=
  fun d w =>
    let '(settled, w') := func args w in
    (Normal (Some settled),
     {| lastArgs := None; result := Some settled; timerId := timerId d;
        lastCallTime := lastCallTime d; lastInvokeTime := time |},
     w').

Definition leadingEdge (args : A) (time : Z) : Timed (option (Completion R)) :=
  fun d w =>
    let d' := {| lastArgs := lastArgs d; result := result d;
                 timerId := setTimeout wait time;
                 lastCallTime := lastCallTime d; lastInvokeTime := time |} in
    if leading options then invokeFunc args time d' w
    else (Normal (result d'), d', w).

(** Without a call so far [lastCallTime] is [undefined] and the differences
    are [NaN]: the timer is set with no delay. *)
Definition remainingWait (d : Debounced) (time : Z) : Z :=
  match lastCallTime d with
  | None => 0
  | Some called =>
      let timeSinceLastCall := time - called in
      let timeSinceLastInvoke := time - lastInvokeTime d in
      let timeWaiting := wait - timeSinceLastCall in
      match maxing with
      | Some most => Z.min timeWaiting (most - timeSinceLastInvoke)
      | None => timeWaiting
      end
  end.

Definition shouldInvoke (d : Debounced) (time : Z) : bool :=
  match lastCallTime d with
  | None => true
  | Some called =>
      let timeSinceLastCall := time - called in
      let timeSinceLastInvoke := time - lastInvokeTime d in
      (wait <=? timeSinceLastCall) || (timeSinceLastCall <? 0)
      || match maxing with
         | Some most => most <=? timeSinceLastInvoke
         | None => false
         end
  end.

Definition trailingEdge (time : Z) : Timed (option (Completion R)) :=
  fun d w =>
    let d' := {| lastArgs := lastArgs d; result := result d; timerId := None;
                 lastCallTime := lastCallTime d; lastInvokeTime := lastInvokeTime d |} in
    match trailing options, lastArgs d with
    | true, Some args => invokeFunc args time d' w
    | _, _ =>
        (Normal (result d),
         {| lastArgs := None; result := result d; timerId := None;
            lastCallTime := lastCallTime d; lastInvokeTime := lastInvokeTime d |},
         w)
    end.

Definition timerExpired : Timed unit :=
  fun d w =>
    let time := clock w in
    if shouldInvoke d time then
      let '(_, d', w') := trailingEdge time d w in (Normal tt, d', w')
    else
      (Normal tt,
       {| lastArgs := lastArgs d; result := result d;
          timerId := setTimeout (remainingWait d time) time;
          lastCallTime := lastCallTime d; lastInvokeTime := lastInvokeTime d |},
       w).

(** The wrapper [debounce] returns. *)
Definition debounced (args : A) : Timed (option (Completion R)) :=
  fun d w =>
    let time := clock w in
    let isInvoking := shouldInvoke d time in
    let called := {| lastArgs := Some args; result := result d; timerId := timerId d;
                     lastCallTime := Some time; lastInvokeTime := lastInvokeTime d |} in
    let rearmed := {| lastArgs := Some args; result := result d;
                      timerId := setTimeout wait time;
                      lastCallTime := Some time; lastInvokeTime := lastInvokeTime d |} in
    match isInvoking, timerId d, maxing with
    | true, None, _ => leadingEdge args time called w
    | true, Some _, Some _ => invokeFunc args time rearmed w
    | _, None, _ => (Normal (result d), rearmed, w)
    | _, Some _, _ => (Normal (result d), called, w)
    end.

(** The browser runs the callback of the pending timer once its time has
    come. *)
Definition dueTimer : Timed unit :=
  fun d w =>
    match timerId d with
    | Some due => if due <=? clock w then timerExpired d w else (Normal tt, d, w)
    | None => (Normal tt, d, w)
    end.

End Debounce.

(** *** The save behind the wrapper *)

Module Timed.

Section Save.

Context {num : Type}.

Definition saveOptions : Options :=
  {| leading := false; maxWait := Some 30000; trailing := true |}.

(** The timer of [debouncedSave] coming due. *)
Definition saveTimer
  : Timed (num:=num) (GameStateWithVersion num) (ApiResponse unit) unit :=
  dueTimer (debouncedSave (num:=num)) SAVE_DEBOUNCE_TIME saveOptions.

(** [const debouncedSave = debounce(async (state) => { ... }, SAVE_DEBOUNCE_TIME,
    { maxWait: 30000 })] *)
Definition debouncedSave (state : GameStateWithVersion num)
  : Timed (num:=num) (GameStateWithVersion num) (ApiResponse unit)
          (option (Completion (ApiResponse unit))) :=
  debounced (debouncedSave (num:=num)) SAVE_DEBOUNCE_TIME saveOptions state.

(** [saveProgress] returns the wrapper's value from inside its [try] without
    awaiting it: the promise is adopted outside the [catch]. *)
Definition saveProgress (state : GameState num)
  : Timed (num:=num) (GameStateWithVersion num) (ApiResponse unit)
          (option (ApiResponse unit)) :=
  then_
    (catch_
       (then_ (lift fetchGameState) (fun currentState =>
          match success currentState, data currentState with
          | true, Some current =>
              let serverVersion := version current in
              let newState := {| fields := state; version := serverVersion + 1 |} in
              then_ (debouncedSave newState) (fun returned => unit_ (inl returned))
          | _, _ => unit_ (inr (failed "Failed to fetch current state"))
          end))
       (fun error => unit_ (inr (failed (messageOf error)))))
    (fun returned =>
       match returned with
       | inl promise => adopt promise
       | inr response => unit_ (Some response)
       end).

End Save.

End Timed.

(** * Theorems *)

(** ** Offline earnings *)

(** C1 (as amended).  [calculateOfflineEarnings] returns
    [timeOffline = min(floor((now - lastUpdated) / 1000), 86400)] and
    [earnings = floor(earningsPerSecond(parts) * timeOffline * 0.5)].  The
    time is at most 86400 for every input; it is capped above only, so it is
    non-negative when [now] is not before [lastUpdated] and negative when it
    is.  At 100000 seconds the time is 86400 and the earnings are
    [floor(earningsPerSecond * 86400 * 0.5)]. *)
Theorem calculateOfflineEarnings_capped_above {num} `{JSNumber num}
    (gameState : GameState num) (currentTime : Z) :
  let r := calculateOfflineEarnings gameState currentTime in
  let eps := calculateEarningsPerSecond (parts gameState) in
  timeOffline r = Z.min ((currentTime - lastUpdated gameState) / 1000) 86400
  /\ earnings r = floor (eps * ofZ (timeOffline r) * lit 5 10)%js
  /\ timeOffline r <= 86400
  /\ (lastUpdated gameState <= currentTime -> 0 <= timeOffline r)
  /\ (currentTime < lastUpdated gameState -> timeOffline r < 0)
  /\ (currentTime - lastUpdated gameState = 100000 * 1000 ->
      timeOffline r = 86400 /\ earnings r = floor (eps * ofZ 86400 * lit 5 10)%js).
Proof.
  cbv zeta. unfold calculateOfflineEarnings. cbn [timeOffline earnings].
  change (24 * 60 * 60) with 86400.
  set (d := currentTime - lastUpdated gameState).
  split; [reflexivity|]. split; [reflexivity|].
  split; [apply Z.le_min_r|].
  split; [|split].
  - intros Hle. apply Z.min_glb; [apply Z.div_pos|]; lia.
  - intros Hlt. apply Z.min_lt_iff. left. apply Z.div_lt_upper_bound; lia.
  - intros ->. split; reflexivity.
Qed.

(** C1, the input that refutes the lower bound: a state stamped 5 seconds
    after the current time yields [timeOffline = -5] (and earnings [-6]). *)
Lemma calculateOfflineEarnings_clock_behind :
  let r := calculateOfflineEarnings (initialState (num:=float) 5000) 0 in
  timeOffline r = -5 /\ earnings r = (-6)%float /\ ~ (0 <= timeOffline r <= 86400).
Proof.
  vm_compute. repeat split; intros [Hle _]; apply Hle; reflexivity.
Qed.

Lemma Qltb_lt (a b : Q) : Qltb a b = true -> (a < b)%Q.
Proof.
  unfold Qltb. intros Hb. apply Qnot_le_lt. intros Hle.
  apply Qle_bool_iff in Hle. rewrite Hle in Hb. discriminate Hb.
Qed.

(** The provider applies offline earnings only when they are positive, so a
    negative result never reaches the store. *)
Lemma initialLoadActions_earnings_positive
    (data : GameState Q) (currentTime : Z) (shown : bool) (action : GameAction Q) :
  In action (initialLoadActions data currentTime shown) ->
  match action with
  | UPDATE_OFFLINE_PROGRESS e _ => (0 < e)%Q
  | _ => True
  end.
Proof.
  unfold initialLoadActions. cbv zeta.
  generalize (calculateOfflineEarnings data currentTime). intros offline.
  intros [<- | Hin]; [exact I|].
  destruct (ltb (ofZ 0) (earnings offline)) eqn:Hpos; cbn [andb] in Hin; [|destruct Hin].
  destruct (negb shown); [|destruct Hin].
  destruct Hin as [<- | [<- | []]]; [|exact I].
  apply Qltb_lt. exact Hpos.
Qed.

(** ** Accrual ticks *)

Lemma dispatchTimes_tick {num} `{JSNumber num} (n : nat) :
  forall (state : GameState num) (now : Z),
  let e := (calculateEarningsPerSecond (parts state) * ofZ 1)%js in
  let sn := dispatchTimes n UPDATE_MINING_PROGRESS state now in
  balance sn = Nat.iter n (fun b => (b + e)%js) (balance state)
  /\ totalMined sn = Nat.iter n (fun b => (b + e)%js) (totalMined state)
  /\ parts sn = parts state.
Proof.
  induction n as [|n IH]; intros state now; cbv zeta.
  - cbn. auto.
  - cbn [dispatchTimes]. rewrite !Nat.iter_succ_r.
    destruct (IH (gameReducer state UPDATE_MINING_PROGRESS now) (now + 1000)) as (Hb & Ht & Hp).
    rewrite Hb, Ht, Hp. cbn [gameReducer parts balance totalMined].
    unfold calculateMiningProgress. auto.
Qed.

Lemma iter_add_exact (e : Q) (n : nat) :
  (Nat.iter n (fun b => b + e) 0 == inject_Z (Z.of_nat n) * e)%Q.
Proof.
  induction n as [|n IH].
  - cbn. ring.
  - rewrite Nat.iter_succ, IH, Nat2Z.inj_succ. unfold Z.succ.
    rewrite inject_Z_plus. ring.
Qed.

(** C7, the scenario in the program's arithmetic: from balance 0 with every
    part at level 1 and mining on, ten ticks leave 23.999999999999996 in
    [balance] and [totalMined], while [10 * earningsPerSecond] is 24. *)
Lemma ten_ticks_binary64_not_ten_times_rate :
  let s := dispatchTimes 10 UPDATE_MINING_PROGRESS (miningState (num:=float)) 0 in
  let eps := calculateEarningsPerSecond (parts (miningState (num:=float))) in
  isMining (miningState (num:=float)) = true
  /\ balance s = 0x1.7ffffffffffffp+4%float
  /\ totalMined s = 0x1.7ffffffffffffp+4%float
  /\ (ofZ 10 * eps)%js = 24%float
  /\ eqb (balance s) (ofZ 10 * eps)%js = false
  /\ balance s <> (ofZ 10 * eps)%js.
Proof.
  cbv zeta. repeat split; try (vm_compute; reflexivity).
  intro E.
  apply (f_equal (fun x => PrimFloat.eqb x 24%float)) in E.
  vm_compute in E. discriminate E.
Qed.

(** C7 (as amended).  One [UPDATE_MINING_PROGRESS] adds
    [earningsPerSecond(parts) * 1] to [balance] and to [totalMined], stamps
    [lastUpdated] and leaves the other fields as they were.  After [n] ticks
    both amounts are the running sum of [n] such additions.  In exact
    arithmetic that sum, started from 0, is [n * earningsPerSecond]; in double
    precision ten ticks from the initial parts give 23.999999999999996 in
    both, not [10 * earningsPerSecond]. *)
Theorem accrueTick_running_sum :
  (forall num (N : JSNumber num) (state : GameState num) (now : Z),
     let e := (calculateEarningsPerSecond (parts state) * ofZ 1)%js in
     let state' := gameReducer state UPDATE_MINING_PROGRESS now in
     balance state' = (balance state + e)%js
     /\ totalMined state' = (totalMined state + e)%js
     /\ lastUpdated state' = now
     /\ parts state' = parts state
     /\ hashRates state' = hashRates state
     /\ isMining state' = isMining state
     /\ miningStartTime state' = miningStartTime state)
  /\ (forall num (N : JSNumber num) (state : GameState num) (now : Z) (n : nat),
        let e := (calculateEarningsPerSecond (parts state) * ofZ 1)%js in
        let sn := dispatchTimes n UPDATE_MINING_PROGRESS state now in
        balance sn = Nat.iter n (fun b => (b + e)%js) (balance state)
        /\ totalMined sn = Nat.iter n (fun b => (b + e)%js) (totalMined state))
  /\ (forall (n : nat),
        let sn := dispatchTimes n UPDATE_MINING_PROGRESS (miningState (num:=Q)) 0 in
        let eps := calculateEarningsPerSecond (parts (miningState (num:=Q))) in
        (balance sn == inject_Z (Z.of_nat n) * eps)%Q
        /\ (totalMined sn == inject_Z (Z.of_nat n) * eps)%Q)
  /\ (let s10 := dispatchTimes 10 UPDATE_MINING_PROGRESS (miningState (num:=float)) 0 in
      balance s10 = 0x1.7ffffffffffffp+4%float
      /\ totalMined s10 = balance s10).
Proof.
  split; [|split; [|split]].
  - intros num N state now. cbv zeta. cbn [gameReducer balance totalMined lastUpdated
      parts hashRates isMining miningStartTime]. unfold calculateMiningProgress.
    repeat split.
  - intros num N state now n. cbv zeta.
    destruct (dispatchTimes_tick n state now) as (Hb & Ht & _). split; assumption.
  - intros n. cbv zeta.
    destruct (dispatchTimes_tick n (miningState (num:=Q)) 0) as (Hb & Ht & _).
    rewrite Hb, Ht.
    change (balance (miningState (num:=Q))) with 0%Q.
    change (totalMined (miningState (num:=Q))) with 0%Q.
    cbn [add mul exact ofZ lit].
    rewrite iter_add_exact. split; ring.
  - cbv zeta. split; vm_compute; reflexivity.
Qed.

(** ** Upgrade cost and hash rate *)

Lemma in_levelsUpTo (m l : Z) : 1 <= l <= m -> In l (levelsUpTo m).
Proof.
  intros Hl. unfold levelsUpTo. rewrite <- (Z2Nat.id l) by lia.
  apply in_map, in_seq. lia.
Qed.

Lemma increasingOn_lt (f : Z -> Q) (m l1 l2 : Z) :
  increasingOn (num:=Q) f (levelsUpTo m) = true ->
  1 <= l1 -> l1 < l2 -> l2 <= m -> (f l1 < f l2)%Q.
Proof.
  intros Hinc H1 H12 H2. unfold increasingOn in Hinc.
  rewrite forallb_forall in Hinc.
  specialize (Hinc l1 (in_levelsUpTo (m:=m) (l:=l1) ltac:(lia))).
  rewrite forallb_forall in Hinc.
  specialize (Hinc l2 (in_levelsUpTo (m:=m) (l:=l2) ltac:(lia))).
  apply Z.ltb_lt in H12. rewrite H12 in Hinc. now apply Qltb_lt.
Qed.

Lemma configured_tables_increasing (part : PartKey) :
  increasingOn (calculateUpgradeCost (num:=Q) part)
    (levelsUpTo (maxLevel (partConfigs (num:=Q) part)))
  && increasingOn (calculateHashRate (num:=Q) part)
       (levelsUpTo (maxLevel (partConfigs (num:=Q) part)))
  = true.
Proof. destruct part; vm_compute; reflexivity. Qed.

(** In double precision, with powers taken by repeated multiplication, the
    configured tables are strictly increasing as well. *)
Lemma configured_tables_increasing_binary64 (part : PartKey) :
  increasingOn (calculateUpgradeCost (num:=float) part)
    (levelsUpTo (maxLevel (partConfigs (num:=float) part)))
  && increasingOn (calculateHashRate (num:=float) part)
       (levelsUpTo (maxLevel (partConfigs (num:=float) part)))
  = true.
Proof. destruct part; vm_compute; reflexivity. Qed.

(** C8.  Under the configured table, for every part and levels
    [1 <= l1 < l2 <= maxLevel], the upgrade cost
    [floor(basePrice * priceMultiplier^l)] and the hash rate are strictly
    larger at [l2] than at [l1]. *)
Theorem upgradeCost_hashRate_increasing (part : PartKey) (l1 l2 : Z) :
  1 <= l1 -> l1 < l2 -> l2 <= maxLevel (partConfigs (num:=Q) part) ->
  (calculateUpgradeCost part l1 < calculateUpgradeCost part l2)%Q
  /\ (calculateHashRate part l1 < calculateHashRate part l2)%Q
  /\ calculateUpgradeCost part l1
     = inject_Z (Qfloor (basePrice (partConfigs part) * priceMultiplier (partConfigs part) ^ l1)).
Proof.
  intros H1 H12 H2.
  destruct (andb_prop _ _ (configured_tables_increasing part)) as [Hc Hh].
  split; [|split].
  - exact (increasingOn_lt _ Hc H1 H12 H2).
  - exact (increasingOn_lt _ Hh H1 H12 H2).
  - reflexivity.
Qed.

(** C8 at the cpu, levels 1 and 2 (costs 150 and 225). *)
Lemma upgradeCost_hashRate_increasing_witness :
  (calculateUpgradeCost (num:=Q) Cpu 1 < calculateUpgradeCost Cpu 2)%Q
  /\ (calculateHashRate (num:=Q) Cpu 1 < calculateHashRate Cpu 2)%Q
  /\ calculateUpgradeCost (num:=Q) Cpu 1
     = inject_Z (Qfloor (basePrice (partConfigs Cpu) * priceMultiplier (partConfigs Cpu) ^ 1)).
Proof.
  apply (@upgradeCost_hashRate_increasing Cpu 1 2); vm_compute; congruence.
Defined.

(** ** The store invariant *)

Lemma PartKey_eqb_eq (a b : PartKey) : PartKey_eqb a b = true <-> a = b.
Proof. destruct a, b; cbn; split; congruence. Qed.

Lemma level_setLevel (ps : Parts) (part part' : PartKey) (l : Z) :
  level (setLevel ps part l) part'
  = if PartKey_eqb part part' then l else level ps part'.
Proof. destruct part, part'; reflexivity. Qed.

Lemma calculateHashRate_pos (part : PartKey) (l : Z) :
  (0 < calculateHashRate (num:=Q) part l)%Q.
Proof.
  unfold calculateHashRate. cbv zeta.
  apply Qmult_lt_0_compat; [|apply Qpower_0_lt]; destruct part; reflexivity.
Qed.

Lemma Qadd_nonneg (a b : Q) : (0 <= a)%Q -> (0 <= b)%Q -> (0 <= a + b)%Q.
Proof.
  intros Ha Hb. apply (Qle_trans _ (0 + 0)); [discriminate|].
  apply Qplus_le_compat; assumption.
Qed.

Lemma sum_hashRates_nonneg (l : list (PartKey * Z)) :
  forall acc : Q, (0 <= acc)%Q ->
  (0 <= fold_left (fun total '(part, lvl) => (total + calculateHashRate part lvl)%js) l acc)%Q.
Proof.
  induction l as [|[part lvl] l IH]; intros acc Hacc; cbn [fold_left].
  - exact Hacc.
  - apply IH, Qadd_nonneg; [exact Hacc|].
    apply Qlt_le_weak, calculateHashRate_pos.
Qed.

Lemma calculateEarningsPerSecond_nonneg (ps : Parts) :
  (0 <= calculateEarningsPerSecond (num:=Q) ps)%Q.
Proof.
  unfold calculateEarningsPerSecond, calculateTotalHashRate. cbv zeta.
  apply Qmult_le_0_compat; [|discriminate].
  apply sum_hashRates_nonneg. discriminate.
Qed.

Lemma Qle_add_nonneg (x e : Q) : (0 <= e)%Q -> (x <= x + e)%Q.
Proof.
  intros He. rewrite <- (Qplus_0_r x) at 1. apply Qplus_le_r. exact He.
Qed.

(** C9.  Every transition of the store other than [SET_GAME_STATE], taken
    under its precondition from a state whose levels are within their maxima,
    lowers no level, keeps every level within its maximum and does not lower
    [totalMined]. *)
Theorem transitions_preserve_invariant
    (state : GameState Q) (action : GameAction Q) (now : Z) :
  precondition state action ->
  levelsWithinMax (parts state) ->
  let state' := gameReducer state action now in
  (forall part, level (parts state) part <= level (parts state') part)
  /\ levelsWithinMax (parts state')
  /\ (totalMined state <= totalMined state')%Q.
Proof.
  intros Hpre Hinv. cbv zeta.
  destruct action as [v|part newLevel|snapshot| | | |e t|e t];
    cbn [gameReducer parts totalMined precondition] in *;
    try (repeat split; [intros; lia | assumption | apply Qle_refl]).
  - destruct Hpre as [Hnew Hmax].
    split; [|split; [|apply Qle_refl]].
    + intros part'. rewrite level_setLevel.
      destruct (PartKey_eqb part part') eqn:E; [|lia].
      apply PartKey_eqb_eq in E. subst part'. lia.
    + intros part'. rewrite level_setLevel.
      destruct (PartKey_eqb part part') eqn:E; [|apply Hinv].
      apply PartKey_eqb_eq in E. subst part'. exact Hmax.
  - contradiction.
  - repeat split; [intros; lia | assumption |].
    apply Qle_add_nonneg. unfold calculateMiningProgress. cbv zeta.
    apply Qmult_le_0_compat; [apply calculateEarningsPerSecond_nonneg | discriminate].
  - repeat split; [intros; lia | assumption |].
    apply Qle_add_nonneg, Hpre.
Qed.

(** C9 at the initial state and the upgrade of the cpu from level 1 to 2. *)
Lemma transitions_preserve_invariant_witness :
  let state := initialState (num:=Q) 0 in
  let state' := gameReducer state (UPGRADE_PART Cpu 2) 1000 in
  (forall part, level (parts state) part <= level (parts state') part)
  /\ levelsWithinMax (parts state')
  /\ (totalMined state <= totalMined state')%Q.
Proof.
  apply (@transitions_preserve_invariant (initialState 0) (UPGRADE_PART Cpu 2) 1000).
  - split; [reflexivity | vm_compute; discriminate].
  - intros part. destruct part; vm_compute; discriminate.
Defined.

(** ** The sync engine *)

Section SyncFacts.

Context {num : Type}.

Local Abbreviation World := (World num).
Local Abbreviation Async := (@Async num).

Lemma sameBrowser_refl (w : World) : sameBrowser w w.
Proof. repeat split. Qed.

Lemma sameBrowser_trans (w1 w2 w3 : World) :
  sameBrowser w1 w2 -> sameBrowser w2 w3 -> sameBrowser w1 w3.
Proof. unfold sameBrowser. intros (?&?&?) (?&?&?). repeat split; congruence. Qed.

Lemma sameQueue_refl (w : World) : sameQueue w w.
Proof. split; reflexivity. Qed.

Lemma sameQueue_trans (w1 w2 w3 : World) :
  sameQueue w1 w2 -> sameQueue w2 w3 -> sameQueue w1 w3.
Proof. unfold sameQueue. intros (?&?) (?&?). split; congruence. Qed.

(** *** retryWithBackoff *)

Ltac world_simpl :=
  cbn [token savedState operationQueue onLine clock network sent created trace
       record store elapse answer push drop fst snd] in *.

Lemma retryWithBackoff_O {A} (operation : Async A) (w : World) :
  retryWithBackoff operation 0 w = operation w.
Proof.
  cbn [retryWithBackoff]. unfold try_catch, throw.
  destruct (operation w) as [[a|e] w']; reflexivity.
Qed.

Lemma retryWithBackoff_S {A} (operation : Async A) (retries : nat) (w : World) :
  retryWithBackoff operation (S retries) w =
  match operation w with
  | (Normal a, w') => (Normal a, w')
  | (Thrown error, w') =>
      if noResponse error then
        let delay :=
          Z.min (1000 * (Z.of_nat MAX_RETRY_ATTEMPTS - Z.of_nat (S retries) + 1)) 5000 in
        retryWithBackoff operation retries (record (Waited delay) (elapse (Z.max 0 delay) w'))
      else (Thrown error, w')
  end.
Proof.
  cbn [retryWithBackoff]. unfold try_catch at 1.
  destruct (operation w) as [[a|e] w']; [reflexivity|].
  destruct (noResponse e); reflexivity.
Qed.

Lemma axios_run (request : Request) (w : World) :
  axios request w = (settle (network w (sent w)), record (Sent request) (answer w)).
Proof. reflexivity. Qed.

Lemma settle_answered (status : Z) (body : Json num) :
  exists c, settle (Response status body) = c
            /\ match c with Thrown e => noResponse e = false | Normal _ => True end.
Proof.
  cbn [settle]. destruct ((200 <=? status) && (status <? 300)); eexists; split;
    try reflexivity; exact I.
Qed.

Lemma retryWithBackoff_axios (request : Request) (retries : nat) :
  forall w : World,
  let k := unanswered (network w) (sent w) retries in
  let attempt := Z.of_nat MAX_RETRY_ATTEMPTS - Z.of_nat retries + 1 in
  let w' := snd (retryWithBackoff (axios request) retries w) in
  fst (retryWithBackoff (axios request) retries w) = settle (network w (sent w + k)%nat)
  /\ trace w' = trace w ++ Sent request :: retryEvents request attempt k
  /\ sent w' = (sent w + S k)%nat
  /\ savedState w' = savedState w
  /\ sameBrowser w w' /\ sameQueue w w'.
Proof.
  induction retries as [|retries IH]; intros w; cbv zeta.
  - rewrite retryWithBackoff_O, axios_run. cbn [unanswered retryEvents].
    rewrite Nat.add_0_r. world_simpl.
    repeat split; try reflexivity. symmetry; apply Nat.add_1_r.
  - rewrite retryWithBackoff_S, axios_run. cbn [unanswered].
    destruct (network w (sent w)) as [message|status body] eqn:Hreply; cbn [isNoReply].
    + cbn [settle noResponse]. cbv zeta.
      match goal with |- context [retryWithBackoff _ retries ?w1] => set (w1' := w1) end.
      destruct (IH w1') as (Hres & Htr & Hsent & Hsaved & Hb & Hq).
      subst w1'. world_simpl. cbn [retryEvents].
      replace (sent w + S (unanswered (network w) (S (sent w)) retries))%nat
        with (S (sent w) + unanswered (network w) (S (sent w)) retries)%nat by lia.
      replace (Z.of_nat MAX_RETRY_ATTEMPTS - Z.of_nat (S retries) + 1 + 1)
        with (Z.of_nat MAX_RETRY_ATTEMPTS - Z.of_nat retries + 1) by lia.
      split; [exact Hres|]. split.
      { rewrite Htr. rewrite <- !app_assoc. reflexivity. }
      split; [rewrite Hsent; lia|].
      split; [exact Hsaved|].
      split; [exact Hb | exact Hq].
    + rewrite Nat.add_0_r, Hreply. cbn [retryEvents].
      destruct (settle_answered status body) as (c & -> & Hc).
      destruct c as [a|e]; [|rewrite Hc]; world_simpl;
        (repeat split; try reflexivity; symmetry; apply Nat.add_1_r).
Qed.

Lemma unanswered_le (net : nat -> @Reply num) (bound : nat) :
  forall from, (unanswered net from bound <= bound)%nat.
Proof.
  induction bound as [|bound IH]; intros from; cbn [unanswered]; [lia|].
  destruct (isNoReply (net from)); [|lia]. specialize (IH (S from)). lia.
Qed.

Lemma unanswered_stops (net : nat -> @Reply num) (bound : nat) :
  forall from,
  (unanswered net from bound < bound)%nat ->
  isNoReply (net (from + unanswered net from bound)%nat) = false.
Proof.
  induction bound as [|bound IH]; intros from Hlt; cbn [unanswered] in *; [lia|].
  destruct (isNoReply (net from)) eqn:E.
  - replace (from + S (unanswered net (S from) bound))%nat
      with (S from + unanswered net (S from) bound)%nat by lia.
    apply IH. lia.
  - rewrite Nat.add_0_r. exact E.
Qed.

Lemma Forall_retryEvents (P : @Event num -> Prop) (request : Request) (k : nat) :
  P (Sent request) -> (forall ms, P (Waited ms)) ->
  forall attempt, Forall P (Sent request :: retryEvents request attempt k).
Proof.
  intros Hsent Hwait. induction k as [|k IH]; intros attempt; cbn [retryEvents].
  - constructor; [exact Hsent | constructor].
  - constructor; [exact Hsent|]. constructor; [apply Hwait|]. apply IH.
Qed.

(** The world a call of a request under [retryWithBackoff] leaves: only the
    network position, the clock and the trace have moved. *)
Lemma retryWithBackoff_frame (request : Request) (w w1 : World) (c : Completion (Json num)) :
  retryWithBackoff (axios request) MAX_RETRY_ATTEMPTS w = (c, w1) ->
  savedState w1 = savedState w /\ sameBrowser w w1 /\ sameQueue w w1
  /\ exists k, trace w1 = trace w ++ Sent request :: retryEvents request 1 k.
Proof.
  intros Hrun.
  destruct (retryWithBackoff_axios request MAX_RETRY_ATTEMPTS w) as (_ & Htr & _ & Hs & Hb & Hq).
  rewrite Hrun in *. cbn [snd] in *.
  repeat split; try assumption; try apply Hb; try apply Hq.
  eexists. exact Htr.
Qed.

(** *** fetchGameState *)

Lemma fetchGameState_run (w : World) :
  fetchGameState w =
  match truthy (token w) with
  | None => (Normal (failed "No authentication token found"), w)
  | Some tok =>
      match retryWithBackoff (axios (loadRequest tok)) MAX_RETRY_ATTEMPTS w with
      | (Normal j, w1) =>
          match GameStateSchema_parse j with
          | Some s =>
              (Normal (succeeded (Some s)),
               record (Cached (JSON_stringify s)) (store (JSON_stringify s) w1))
          | None => (Normal (failed "Invalid input"), w1)
          end
      | (Thrown e, w1) =>
          if noResponse e then
            match savedState w1 with
            | Some (JsonText j) =>
                match GameStateSchema_parse j with
                | Some s => (Normal (succeeded (Some s)), w1)
                | None => (Normal (failed "Invalid stored game state"), w1)
                end
            | Some NotJson => (Normal (failed "Invalid stored game state"), w1)
            | _ => (Normal (failed (messageOf e)), w1)
            end
          else if statusIs 401 e then (Normal (failed "Authentication required"), w1)
          else (Normal (failed (messageOf e)), w1)
      end
  end.
Proof.
  unfold fetchGameState, try_catch, bind, getToken, loadRequest.
  destruct (truthy (token w)) as [tok|]; [|reflexivity].
  destruct (retryWithBackoff _ MAX_RETRY_ATTEMPTS w) as [[j|e] w1].
  - destruct (GameStateSchema_parse j); reflexivity.
  - destruct (noResponse e) eqn:Hno.
    + assert (H401 : statusIs 401 e = false)
        by (destruct e as [[status|] ?|?|?|?]; try reflexivity; discriminate Hno).
      rewrite H401. unfold getItem.
      destruct (savedState w1) as [[j| |]|]; try reflexivity.
      destruct (GameStateSchema_parse j); reflexivity.
    + destruct (statusIs 401 e); reflexivity.
Qed.

(** The load always comes back with a result, and the world it leaves is the
    one the request left, possibly with the validated remote state written to
    the cache. *)
Lemma fetchGameState_world (w : World) :
  exists r w', fetchGameState w = (Normal r, w')
  /\ (w' = w
      \/ exists tok c w1,
           truthy (token w) = Some tok
           /\ retryWithBackoff (axios (loadRequest tok)) MAX_RETRY_ATTEMPTS w = (c, w1)
           /\ ((w' = w1 /\ forall j s, c = Normal j -> GameStateSchema_parse j = Some s -> False)
               \/ exists j s, c = Normal j /\ GameStateSchema_parse j = Some s
                  /\ r = succeeded (Some s)
                  /\ w' = record (Cached (JSON_stringify s)) (store (JSON_stringify s) w1))).
Proof.
  rewrite fetchGameState_run.
  destruct (truthy (token w)) as [tok|] eqn:Htok; [|eauto].
  destruct (retryWithBackoff (axios (loadRequest tok)) MAX_RETRY_ATTEMPTS w)
    as [[j|e] w1] eqn:Hretry.
  - destruct (GameStateSchema_parse j) as [s|] eqn:Hparse.
    + do 2 eexists. split; [reflexivity|]. right. exists tok, (Normal j), w1.
      split; [reflexivity|]. split; [exact Hretry|]. right. exists j, s. auto.
    + do 2 eexists. split; [reflexivity|]. right. exists tok, (Normal j), w1.
      split; [reflexivity|]. split; [exact Hretry|]. left. split; [reflexivity|].
      intros j' s' E. injection E as <-. congruence.
  - assert (Hw1 : forall r : ApiResponse (GameStateWithVersion num),
               exists r' w', (Normal r, w1) = (Normal r', w')
               /\ (w' = w
                   \/ exists tok0 c w2, Some tok = Some tok0
                      /\ retryWithBackoff (axios (loadRequest tok0)) MAX_RETRY_ATTEMPTS w
                         = (c, w2)
                      /\ ((w' = w2 /\ forall j s, c = Normal j ->
                                       GameStateSchema_parse j = Some s -> False)
                          \/ exists j s, c = Normal j /\ GameStateSchema_parse j = Some s
                             /\ r' = succeeded (Some s)
                             /\ w' = record (Cached (JSON_stringify s))
                                       (store (JSON_stringify s) w2)))).
    { intros r. exists r, w1. split; [reflexivity|]. right. exists tok, (Thrown e), w1.
      split; [reflexivity|]. split; [exact Hretry|]. left. split; [reflexivity|].
      intros j s E. discriminate E. }
    destruct (noResponse e).
    + destruct (savedState w1) as [[j| |]|]; try apply Hw1.
      destruct (GameStateSchema_parse j); apply Hw1.
    + destruct (statusIs 401 e); apply Hw1.
Qed.

Lemma fetchGameState_returns (w : World) :
  exists r w', fetchGameState w = (Normal r, w').
Proof.
  destruct (fetchGameState_world w) as (r & w' & Hrun & _). eauto.
Qed.

Lemma fetchGameState_frame (w w' : World) (r : ApiResponse (GameStateWithVersion num)) :
  fetchGameState w = (Normal r, w') ->
  sameBrowser w w' /\ sameQueue w w'
  /\ exists evs, trace w' = trace w ++ evs /\ Forall (fun ev => isWrite ev = false) evs.
Proof.
  intros Hrun.
  destruct (fetchGameState_world w) as (r0 & w0 & Hrun0 & Hw).
  rewrite Hrun in Hrun0. injection Hrun0 as <- <-.
  destruct Hw as [-> | (tok & c & w1 & Htok & Hretry & Hw)].
  - split; [apply sameBrowser_refl|]. split; [apply sameQueue_refl|].
    exists []. rewrite app_nil_r. split; [reflexivity | constructor].
  - destruct (retryWithBackoff_frame _ _ Hretry) as (Hs & Hb & Hq & k & Htr).
    assert (Hget : Forall (fun ev : @Event num => isWrite ev = false)
                     (Sent (loadRequest tok) :: retryEvents (loadRequest tok) 1 k))
      by (apply Forall_retryEvents; reflexivity).
    destruct Hw as [[-> _] | (j & s & _ & _ & _ & ->)].
    + split; [exact Hb|]. split; [exact Hq|]. eexists. split; [exact Htr | exact Hget].
    + split; [exact Hb|]. split; [exact Hq|]. world_simpl.
      eexists. rewrite Htr, <- app_assoc. split; [reflexivity|].
      apply Forall_app. split; [exact Hget|]. constructor; [reflexivity | constructor].
Qed.

(** *** debouncedSave and saveProgress *)

Lemma debouncedSave_run (state : GameStateWithVersion num) (w : World) :
  debouncedSave state w =
  let handler (e : Exn) (w1 : World) : Completion (ApiResponse unit) * World :=
    if negb (onLine w1) then (Normal (queued "Changes queued for sync"), push (save state) w1)
    else (Normal (failed (messageOf e)), w1) in
  match truthy (token w) with
  | None => handler (Error "No authentication token found") w
  | Some tok =>
      match retryWithBackoff (axios (saveRequest tok state)) MAX_RETRY_ATTEMPTS w with
      | (Normal _, w1) =>
          (Normal (succeeded None),
           record (Cached (JSON_stringify state)) (store (JSON_stringify state) w1))
      | (Thrown e, w1) => handler e w1
      end
  end.
Proof.
  unfold debouncedSave, try_catch, bind, getToken, saveRequest, navigator_onLine, enqueue.
  cbv zeta.
  destruct (truthy (token w)) as [tok|].
  - destruct (retryWithBackoff _ MAX_RETRY_ATTEMPTS w) as [[j|e] w1]; [reflexivity|].
    destruct (onLine w1); reflexivity.
  - cbn. destruct (onLine w); reflexivity.
Qed.

Lemma debouncedSave_returns (state : GameStateWithVersion num) (w : World) :
  exists r w', debouncedSave state w = (Normal r, w').
Proof.
  rewrite debouncedSave_run. cbv zeta.
  destruct (truthy (token w)) as [tok|].
  - destruct (retryWithBackoff _ MAX_RETRY_ATTEMPTS w) as [[j|e] w1]; eauto.
    destruct (onLine w1); cbn [negb]; eauto.
  - destruct (onLine w); cbn [negb]; eauto.
Qed.

Lemma saveProgress_run (state : GameState num) (w : World) :
  saveProgress state w =
  match fetchGameState w with
  | (Normal currentState, w0) =>
      match success currentState, data currentState with
      | true, Some current => debouncedSave (nextVersion state current) w0
      | _, _ => (Normal (failed "Failed to fetch current state"), w0)
      end
  | (Thrown e, w0) => (Normal (failed (messageOf e)), w0)
  end.
Proof.
  unfold saveProgress, try_catch, bind. cbv zeta.
  destruct (fetchGameState w) as [[cur|e] w0]; [|reflexivity].
  destruct (success cur); [|reflexivity].
  destruct (data cur) as [d|]; [|reflexivity].
  fold (nextVersion state d).
  destruct (debouncedSave_returns (nextVersion state d) w0) as (r & w' & ->).
  reflexivity.
Qed.

Lemma saveProgress_returns (state : GameState num) (w : World) :
  exists r w', saveProgress state w = (Normal r, w').
Proof.
  rewrite saveProgress_run.
  destruct (fetchGameState w) as [[cur|e] w0]; eauto.
  destruct (success cur); eauto.
  destruct (data cur) as [d|]; eauto.
  apply debouncedSave_returns.
Qed.

Lemma debouncedSave_trace (state : GameStateWithVersion num) (w : World) :
  exists evs,
    trace (snd (debouncedSave state w)) = trace w ++ evs
    /\ Forall (writesOnly state) evs
    /\ forall tok, truthy (token w) = Some tok ->
                   hd_error evs = Some (Sent (saveRequest tok state)).
Proof.
  rewrite debouncedSave_run. cbv zeta.
  destruct (truthy (token w)) as [tok|] eqn:Htok.
  - destruct (retryWithBackoff (axios (saveRequest tok state)) MAX_RETRY_ATTEMPTS w)
      as [[j|e] w1] eqn:Hretry;
      destruct (retryWithBackoff_frame _ _ Hretry) as (_ & _ & _ & k & Htr);
      assert (Hpost : Forall (writesOnly state)
                        (Sent (saveRequest tok state)
                           :: retryEvents (saveRequest tok state) 1 k))
        by (apply Forall_retryEvents; cbn; auto).
    + world_simpl. eexists. rewrite Htr, <- app_assoc. split; [reflexivity|]. split.
      * apply Forall_app. split; [exact Hpost|]. constructor; [exact I | constructor].
      * intros tok' E. injection E as <-. reflexivity.
    + destruct (onLine w1); cbn [negb]; world_simpl;
        (eexists; split; [exact Htr|]; split; [exact Hpost|];
         intros tok' E; injection E as <-; reflexivity).
  - destruct (onLine w); cbn [negb]; world_simpl;
      (exists []; rewrite app_nil_r; split; [reflexivity|]; split; [constructor|];
       intros tok' E; discriminate E).
Qed.

(** *** The claims on load, save and retry *)

(** C6.  A request under [retryWithBackoff] is re-sent only while it goes
    unanswered, at most 3 times, after waits of [min(1000 * n, 5000)] ms before
    retry [n]; the caller sees a connectivity failure only after the third
    retry, and an answer carrying a response (an error status included) ends
    the attempts at once and is what the caller gets. *)
Theorem retryWithBackoff_bounded_linear (request : Request) (w : World) :
  let k := unanswered (network w) (sent w) MAX_RETRY_ATTEMPTS in
  let run := retryWithBackoff (axios request) MAX_RETRY_ATTEMPTS w in
  (k <= 3)%nat
  /\ fst run = settle (network w (sent w + k)%nat)
  /\ trace (snd run) = trace w ++ Sent request :: retryEvents request 1 k
  /\ ((k < 3)%nat -> isNoReply (network w (sent w + k)%nat) = false)
  /\ (forall message, fst run = Thrown (AxiosError None message) ->
      trace (snd run)
      = trace w ++ [Sent request; Waited 1000; Sent request; Waited 2000;
                    Sent request; Waited 3000; Sent request])
  /\ (forall status body, network w (sent w) = Response status body ->
      fst run = settle (Response status body)
      /\ trace (snd run) = trace w ++ [Sent request]).
Proof.
  cbv zeta.
  destruct (retryWithBackoff_axios request MAX_RETRY_ATTEMPTS w) as (Hres & Htr & _).
  change (Z.of_nat MAX_RETRY_ATTEMPTS - Z.of_nat MAX_RETRY_ATTEMPTS + 1) with 1 in Htr.
  pose proof (unanswered_le (network w) MAX_RETRY_ATTEMPTS (sent w)) as Hle.
  pose proof (@unanswered_stops (network w) MAX_RETRY_ATTEMPTS (sent w)) as Hstop.
  set (k := unanswered (network w) (sent w) MAX_RETRY_ATTEMPTS) in *.
  change MAX_RETRY_ATTEMPTS with 3%nat in Hle, Hstop.
  split; [exact Hle|]. split; [exact Hres|]. split; [exact Htr|]. split; [exact Hstop|].
  split.
  - intros message Hfail. rewrite Hres in Hfail.
    assert (Hk : k = 3%nat).
    { destruct (Nat.eq_dec k 3) as [E|E]; [exact E|].
      specialize (Hstop ltac:(lia)).
      destruct (network w (sent w + k)) as [m|status body]; [discriminate Hstop|].
      destruct (settle_answered status body) as (c & Hc & Hno). rewrite Hc in Hfail.
      subst c. discriminate Hno. }
    rewrite Htr, Hk. reflexivity.
  - intros status body Hreply.
    assert (Hk : k = 0%nat).
    { subst k. cbn [unanswered MAX_RETRY_ATTEMPTS]. rewrite Hreply. reflexivity. }
    rewrite Htr, Hres, Hk, Nat.add_0_r, Hreply. split; reflexivity.
Qed.

(** C5.  [fetchGameState], for a request sent with the stored token: a remote
    state that validates is written to the cache and returned; when the request
    ends without any response, the cached copy is returned if it validates and
    a failure otherwise; a 401 response gives the failure 'Authentication
    required', whatever the cache holds. *)
Theorem fetchGameState_load_policy
    (w w1 : World) (tok : string) (c : Completion (Json num)) :
  truthy (token w) = Some tok ->
  retryWithBackoff (axios (loadRequest tok)) MAX_RETRY_ATTEMPTS w = (c, w1) ->
  (forall j s, c = Normal j -> GameStateSchema_parse j = Some s ->
     fetchGameState w
     = (Normal (succeeded (Some s)),
        record (Cached (JSON_stringify s)) (store (JSON_stringify s) w1))
     /\ savedState (snd (fetchGameState w)) = Some (JSON_stringify s))
  /\ (forall message, c = Thrown (AxiosError None message) ->
      (forall j s, savedState w = Some (JsonText j) -> GameStateSchema_parse j = Some s ->
         fetchGameState w = (Normal (succeeded (Some s)), w1))
      /\ ((forall j, savedState w = Some (JsonText j) -> GameStateSchema_parse j = None) ->
          exists r, fetchGameState w = (Normal r, w1) /\ success r = false))
  /\ (forall message, c = Thrown (AxiosError (Some 401) message) ->
      fetchGameState w = (Normal (failed "Authentication required"), w1)
      /\ savedState w1 = savedState w).
Proof.
  intros Htok Hretry.
  destruct (retryWithBackoff_frame _ _ Hretry) as (Hsaved & _).
  rewrite fetchGameState_run, Htok, Hretry.
  split; [|split].
  - intros j s -> Hparse. rewrite Hparse. split; reflexivity.
  - intros message ->. cbn [noResponse]. rewrite Hsaved. split.
    + intros j s -> Hparse. rewrite Hparse. reflexivity.
    + intros Hinvalid. destruct (savedState w) as [[j| |]|]; eauto.
      rewrite (Hinvalid j eq_refl). eauto.
  - intros message ->. cbn [noResponse statusIs Z.eqb Pos.eqb]. split; [reflexivity | exact Hsaved].
Qed.


(** *** upgradePart and updateBalance *)

Lemma replay_optimistic_run (o : Operation) (w : World) :
  isOptimistic o = true ->
  replay o w =
  match fetchGameState w with
  | (Normal currentState, w0) =>
      match success currentState, data currentState with
      | true, Some current =>
          let updatedState := optimisticState o current in
          let w1 := record (Cached (JSON_stringify updatedState))
                      (store (JSON_stringify updatedState) w0) in
          if negb (onLine w0) then (Normal (queued (queuedMessage o)), push o w1)
          else saveProgress (fields updatedState) w1
      | _, _ => (Normal (failed "Failed to fetch current state"), w0)
      end
  | (Thrown e, w0) => (Normal (failed (messageOf e)), w0)
  end.
Proof.
  destruct o as [data|part lvl|b]; [discriminate| |]; intros _;
    cbn [replay optimisticState queuedMessage];
    unfold upgradePart, updateBalance, try_catch, bind; cbv zeta;
    (destruct (fetchGameState w) as [[cur|e] w0]; [|reflexivity]);
    (destruct (success cur); [|reflexivity]);
    (destruct (data cur) as [d|]; [|reflexivity]);
    unfold setItem, navigator_onLine, enqueue, ret; world_simpl;
    (destruct (onLine w0); cbn [negb]; [|reflexivity]).
  - destruct (saveProgress_returns
                (fields (withParts d (setLevel (parts (fields d)) part lvl)))
                (record (Cached (JSON_stringify (withParts d (setLevel (parts (fields d)) part lvl))))
                   (store (JSON_stringify (withParts d (setLevel (parts (fields d)) part lvl))) w0)))
      as (r & w' & ->).
    reflexivity.
  - destruct (saveProgress_returns
                (fields (withBalance d b))
                (record (Cached (JSON_stringify (withBalance d b)))
                   (store (JSON_stringify (withBalance d b)) w0)))
      as (r & w' & ->).
    reflexivity.
Qed.

(** What the load leaves in the cache: the validated remote state when the
    request brought one, and what was there otherwise. *)
Lemma fetchGameState_cache (w : World) (tok : string) :
  truthy (token w) = Some tok ->
  savedState (snd (fetchGameState w))
  = match fst (retryWithBackoff (axios (loadRequest tok)) MAX_RETRY_ATTEMPTS w) with
    | Normal j =>
        match GameStateSchema_parse j with
        | Some s => Some (JSON_stringify s)
        | None => savedState w
        end
    | Thrown _ => savedState w
    end.
Proof.
  intros Htok. rewrite fetchGameState_run, Htok.
  destruct (retryWithBackoff (axios (loadRequest tok)) MAX_RETRY_ATTEMPTS w)
    as [[j|e] w1] eqn:Hretry.
  - apply retryWithBackoff_frame in Hretry. destruct Hretry as (Hs & _).
    cbn [fst]. destruct (GameStateSchema_parse j); [reflexivity | exact Hs].
  - apply retryWithBackoff_frame in Hretry. destruct Hretry as (Hs & _).
    cbn [fst]. destruct (noResponse e).
    + destruct (savedState w1) as [[j| |]|] eqn:E; rewrite <- E in Hs; try exact Hs.
      destruct (GameStateSchema_parse j); exact Hs.
    + destruct (statusIs 401 e); exact Hs.
Qed.

Lemma debouncedSave_online (state : GameStateWithVersion num) (w : World) :
  onLine w = true ->
  let run := debouncedSave state w in
  sameBrowser w (snd run) /\ sameQueue w (snd run)
  /\ (forall r, fst run = Normal r -> success r = false -> savedState (snd run) = savedState w).
Proof.
  intros Hon. cbv zeta. rewrite debouncedSave_run. cbv zeta.
  destruct (truthy (token w)) as [tok|].
  - destruct (retryWithBackoff (axios (saveRequest tok state)) MAX_RETRY_ATTEMPTS w)
      as [[j|e] w1] eqn:Hretry;
      apply retryWithBackoff_frame in Hretry;
      destruct Hretry as (Hs & Hb & Hq & _).
    + world_simpl. split; [exact Hb|]. split; [exact Hq|].
      intros r E. injection E as <-. discriminate.
    + destruct Hb as (Ht & Ho & Hn). rewrite Ho, Hon. cbn [negb]. world_simpl.
      repeat split; assumption || apply Hq || auto.
  - rewrite Hon. cbn [negb]. world_simpl.
    repeat split; reflexivity.
Qed.

Lemma saveProgress_online (state : GameState num) (w : World) :
  onLine w = true ->
  let run := saveProgress state w in
  sameBrowser w (snd run) /\ sameQueue w (snd run)
  /\ (exists evs, trace (snd run) = trace w ++ evs)
  /\ (forall r, fst run = Normal r -> success r = false ->
      savedState (snd run) = savedState (snd (fetchGameState w))).
Proof.
  intros Hon. cbv zeta. rewrite saveProgress_run.
  destruct (fetchGameState_returns w) as (cur & w0 & Hload). rewrite Hload.
  pose proof Hload as Hf. apply fetchGameState_frame in Hf.
  destruct Hf as (Hb0 & Hq0 & evs0 & Htr0 & _).
  assert (Hon0 : onLine w0 = true) by (destruct Hb0 as (_ & -> & _); exact Hon).
  assert (Hstay : sameBrowser w w0 /\ sameQueue w w0
                  /\ (exists evs, trace w0 = trace w ++ evs)
                  /\ (forall r : ApiResponse unit,
                        Normal (failed "Failed to fetch current state") = Normal r ->
                        success r = false -> savedState w0 = savedState w0)).
  { repeat split; try apply Hb0; try apply Hq0; eauto. }
  destruct (success cur); [|exact Hstay].
  destruct (data cur) as [d|]; [|exact Hstay].
  destruct (debouncedSave_online (nextVersion state d) w0 Hon0) as (Hb1 & Hq1 & Hs1).
  destruct (debouncedSave_trace (nextVersion state d) w0) as (evs1 & Htr1 & _).
  split; [eapply sameBrowser_trans; eassumption|].
  split; [eapply sameQueue_trans; eassumption|].
  split; [exists (evs0 ++ evs1); rewrite Htr1, Htr0, app_assoc; reflexivity|].
  exact Hs1.
Qed.

Lemma replay_returns (o : Operation) (w : World) :
  exists r w', replay o w = (Normal r, w').
Proof.
  destruct o as [d|part lvl|b].
  - apply saveProgress_returns.
  - rewrite replay_optimistic_run by reflexivity.
    destruct (fetchGameState w) as [[cur|e] w0]; eauto.
    destruct (success cur); eauto. destruct (data cur); eauto. cbv zeta.
    destruct (negb (onLine w0)); eauto. apply saveProgress_returns.
  - rewrite replay_optimistic_run by reflexivity.
    destruct (fetchGameState w) as [[cur|e] w0]; eauto.
    destruct (success cur); eauto. destruct (data cur); eauto. cbv zeta.
    destruct (negb (onLine w0)); eauto. apply saveProgress_returns.
Qed.

(** Online, a replayed operation leaves the queue as it found it. *)
Lemma replay_online (o : Operation) (w : World) :
  onLine w = true ->
  sameBrowser w (snd (replay o w)) /\ sameQueue w (snd (replay o w)).
Proof.
  intros Hon. destruct (isOptimistic o) eqn:Hopt.
  - rewrite replay_optimistic_run by exact Hopt.
    destruct (fetchGameState_returns w) as (cur & w0 & Hload). rewrite Hload.
    apply fetchGameState_frame in Hload. destruct Hload as (Hb0 & Hq0 & _).
    assert (Hon0 : onLine w0 = true) by (destruct Hb0 as (_ & -> & _); exact Hon).
    destruct (success cur); [|split; assumption].
    destruct (data cur) as [d|]; [|split; assumption].
    cbv zeta. rewrite Hon0. cbn [negb].
    match goal with |- context [saveProgress ?s ?w1] =>
      destruct (@saveProgress_online s w1 Hon0) as (Hb1 & Hq1 & _);
      assert (Hb01 : sameBrowser w0 w1) by (repeat split);
      assert (Hq01 : sameQueue w0 w1) by (repeat split)
    end.
    split.
    + eapply sameBrowser_trans; [exact Hb0|]. eapply sameBrowser_trans; eassumption.
    + eapply sameQueue_trans; [exact Hq0|]. eapply sameQueue_trans; eassumption.
  - destruct o as [d| |]; try discriminate Hopt. cbn [replay].
    destruct (@saveProgress_online (fields d) w Hon) as (Hb & Hq & _). split; assumption.
Qed.

(** C10 (as amended).  [upgradePart] and [updateBalance], once their load has
    succeeded, write the optimistic state to the cache before anything is sent
    to the save endpoint.  When the save then fails online, nothing restores
    the state from before the operation; the cache holds the optimistic state
    unless the load the save starts with brought a valid remote state, which
    then replaced it. *)
Theorem optimistic_write_precedes_save
    (o : Operation) (w w0 : World)
    (currentState : ApiResponse (GameStateWithVersion num))
    (current : GameStateWithVersion num) (tok : string) :
  isOptimistic o = true ->
  fetchGameState w = (Normal currentState, w0) ->
  success currentState = true ->
  data currentState = Some current ->
  truthy (token w) = Some tok ->
  let updatedState := optimisticState o current in
  let w1 := record (Cached (JSON_stringify updatedState))
              (store (JSON_stringify updatedState) w0) in
  let run := replay o w in
  (exists evs0, trace w0 = trace w ++ evs0 /\ Forall (fun ev => isWrite ev = false) evs0)
  /\ savedState w1 = Some (JSON_stringify updatedState)
  /\ (exists evs, trace (snd run) = trace w0 ++ Cached (JSON_stringify updatedState) :: evs)
  /\ (onLine w = true -> forall r, fst run = Normal r -> success r = false ->
      savedState (snd run)
      = match fst (retryWithBackoff (axios (loadRequest tok)) MAX_RETRY_ATTEMPTS w1) with
        | Normal j =>
            match GameStateSchema_parse j with
            | Some s => Some (JSON_stringify s)
            | None => Some (JSON_stringify updatedState)
            end
        | Thrown _ => Some (JSON_stringify updatedState)
        end).
Proof.
  intros Hopt Hload Hok Hdata Htok. cbv zeta.
  pose proof Hload as Hf. apply fetchGameState_frame in Hf.
  destruct Hf as ((Htok0 & Hon0 & _) & _ & Hread).
  rewrite replay_optimistic_run by exact Hopt.
  rewrite Hload, Hok, Hdata. cbv zeta.
  set (updatedState := optimisticState o current).
  set (w1 := record (Cached (JSON_stringify updatedState))
               (store (JSON_stringify updatedState) w0)).
  split; [exact Hread|]. split; [reflexivity|].
  rewrite Hon0. destruct (onLine w) eqn:Hon; cbn [negb].
  - assert (Hon1 : onLine w1 = true) by (subst w1; world_simpl; congruence).
    destruct (@saveProgress_online (fields updatedState) w1 Hon1) as (_ & _ & (evs & Htr) & Hs).
    split.
    + exists evs. rewrite Htr. subst w1. world_simpl. rewrite <- app_assoc. reflexivity.
    + intros _ r Hr Hfail. rewrite (Hs r Hr Hfail).
      rewrite (@fetchGameState_cache w1 tok)
        by (subst w1; world_simpl; rewrite Htok0; exact Htok).
      reflexivity.
  - split; [|discriminate]. exists []. reflexivity.
Qed.

(** *** processQueue *)

Lemma insertByTimestamp_In (x y : QueuedOperation num) (l : list (QueuedOperation num)) :
  In x (insertByTimestamp y l) <-> x = y \/ In x l.
Proof.
  induction l as [|z l IH]; cbn [insertByTimestamp].
  - cbn. intuition.
  - destruct (timestamp y <=? timestamp z); cbn [In]; [intuition|].
    rewrite IH. intuition.
Qed.

Lemma sortByTimestamp_In (x : QueuedOperation num) (l : list (QueuedOperation num)) :
  In x (sortByTimestamp l) <-> In x l.
Proof.
  induction l as [|y l IH]; cbn [sortByTimestamp fold_right]; [reflexivity|].
  fold (sortByTimestamp l). rewrite insertByTimestamp_In, IH. cbn. intuition.
Qed.

Lemma insertByTimestamp_sorted (y : QueuedOperation num) (l : list (QueuedOperation num)) :
  Sorted (fun a b => timestamp a <= timestamp b) l ->
  Sorted (fun a b => timestamp a <= timestamp b) (insertByTimestamp y l).
Proof.
  induction l as [|z l IH]; intros Hs; cbn [insertByTimestamp].
  - constructor; constructor.
  - destruct (timestamp y <=? timestamp z) eqn:E.
    + constructor; [exact Hs|]. constructor. apply Z.leb_le. exact E.
    + apply Z.leb_gt in E. inversion Hs as [|? ? Hs' Hhd]; subst.
      constructor; [apply IH; exact Hs'|].
      destruct l as [|z' l]; cbn [insertByTimestamp].
      * constructor. lia.
      * destruct (timestamp y <=? timestamp z'); constructor; [lia|].
        inversion Hhd; subst. assumption.
Qed.

(** The replay order: the queue sorted by enqueue timestamp. *)
Lemma sortByTimestamp_sorted (l : list (QueuedOperation num)) :
  Sorted (fun a b => timestamp a <= timestamp b) (sortByTimestamp l).
Proof.
  induction l as [|y l IH]; cbn [sortByTimestamp fold_right]; [constructor|].
  apply insertByTimestamp_sorted. exact IH.
Qed.

Lemma filter_filter {A} (f g : A -> bool) (l : list A) :
  filter f (filter g l) = filter (fun x => g x && f x) l.
Proof.
  induction l as [|x l IH]; cbn [filter]; [reflexivity|].
  destruct (g x); cbn [filter andb]; [destruct (f x)|]; rewrite IH; reflexivity.
Qed.

Lemma filter_none {A} (f : A -> bool) (l : list A) :
  (forall x, In x l -> f x = false) -> filter f l = [].
Proof.
  induction l as [|x l IH]; intros Hall; cbn [filter]; [reflexivity|].
  rewrite (Hall x (or_introl eq_refl)). apply IH. intros y Hy. apply Hall. right. exact Hy.
Qed.

Lemma processQueue_loop_online (l : list (QueuedOperation num)) :
  forall w : World,
  onLine w = true ->
  fst (processQueue_loop l w) = Normal tt
  /\ onLine (snd (processQueue_loop l w)) = true
  /\ operationQueue (snd (processQueue_loop l w))
     = filter (fun o => negb (replayed l o)) (operationQueue w).
Proof.
  induction l as [|operation rest IH]; intros w Hon; cbn [processQueue_loop].
  - unfold ret. cbn [fst snd replayed existsb negb].
    repeat split; try assumption.
    induction (operationQueue w) as [|x q IHq]; cbn [filter]; congruence.
  - unfold bind at 1. unfold try_catch, bind, dequeue, ret.
    destruct (replay_returns (op operation) w) as (r & w1 & Hrun).
    destruct (replay_online (op operation) w Hon) as ((_ & Hon1 & _) & (Hq1 & _)).
    rewrite Hrun in *. cbn [snd] in Hon1, Hq1.
    destruct (IH (drop operation w1)) as (Hres & Hon' & Hq').
    { world_simpl. congruence. }
    split; [exact Hres|]. split; [exact Hon'|].
    rewrite Hq'. world_simpl. rewrite Hq1, filter_filter.
    apply filter_ext. intros o. cbn [replayed existsb].
    rewrite negb_orb. reflexivity.
Qed.

(** Online, [processQueue] removes every operation it replays, whatever the
    replay returned: the replayed functions report failure in their result and
    never throw, so the [catch] arm that would stop the loop is never taken. *)
Lemma processQueue_online_drains (w : World) :
  onLine w = true ->
  operationQueue (snd (processQueue w)) = [].
Proof.
  intros Hon. unfold processQueue. rewrite Hon. cbn [negb orb].
  destruct (operationQueue w) as [|o q] eqn:Hq; [cbn; exact Hq|].
  cbn [List.length Nat.eqb]. rewrite <- Hq.
  destruct (processQueue_loop_online (sortByTimestamp (operationQueue w)) w Hon)
    as (_ & _ & ->).
  apply filter_none. intros x Hx.
  apply negb_false_iff. unfold replayed. apply existsb_exists.
  exists x. split; [apply sortByTimestamp_In; exact Hx | apply Nat.eqb_refl].
Qed.

End SyncFacts.

(** ** The save behind lodash's wrapper *)

Section TimedFacts.

Context {num : Type}.

Local Abbreviation Wrapper := (Debounced (GameStateWithVersion num) (ApiResponse unit)).

(** A call of [saveProgress] with no timer pending: after a successful load
    the state is handed to the wrapper, which sets its timer and hands back
    what it holds from the invocation before. *)
Lemma saveProgress_call
    (state : GameState num) (d : Wrapper) (w w0 : World num)
    (currentState : ApiResponse (GameStateWithVersion num))
    (current : GameStateWithVersion num) :
  fetchGameState w = (Normal currentState, w0) ->
  success currentState = true ->
  data currentState = Some current ->
  timerId d = None ->
  Timed.saveProgress state d w
  = (resolved (result d),
     {| lastArgs := Some (nextVersion state current); result := result d;
        timerId := Some (clock w0 + SAVE_DEBOUNCE_TIME);
        lastCallTime := Some (clock w0);
        lastInvokeTime :=
          if shouldInvoke SAVE_DEBOUNCE_TIME Timed.saveOptions d (clock w0)
          then clock w0 else lastInvokeTime d |},
     w0).
Proof.
  intros Hload Hok Hdata Htimer.
  unfold Timed.saveProgress, then_, catch_, lift, unit_, adopt.
  rewrite Hload, Hok, Hdata. cbv zeta.
  unfold Timed.debouncedSave, debounced, leadingEdge, setTimeout. cbv zeta.
  rewrite Htimer. fold (nextVersion state current).
  destruct (shouldInvoke SAVE_DEBOUNCE_TIME Timed.saveOptions d (clock w0));
    cbn [leading Timed.saveOptions result lastArgs lastCallTime];
    reflexivity.
Qed.

(** The timer coming due, 5 s or more after the last call: the write runs on
    the state of that call, and the wrapper keeps what it settled with. *)
Lemma saveTimer_writes
    (d : Wrapper) (w : World num) (state : GameStateWithVersion num) (due called : Z) :
  lastArgs d = Some state ->
  timerId d = Some due ->
  due <= clock w ->
  lastCallTime d = Some called ->
  called + SAVE_DEBOUNCE_TIME <= clock w ->
  Timed.saveTimer d w
  = (Normal tt,
     {| lastArgs := None; result := Some (fst (debouncedSave state w));
        timerId := None; lastCallTime := Some called; lastInvokeTime := clock w |},
     snd (debouncedSave state w)).
Proof.
  intros Hargs Htimer Hdue Hcalled Hwait.
  unfold Timed.saveTimer, dueTimer. rewrite Htimer.
  apply Z.leb_le in Hdue. rewrite Hdue.
  unfold timerExpired, shouldInvoke. rewrite Hcalled. cbv zeta.
  assert (Hle : (SAVE_DEBOUNCE_TIME <=? clock w - called) = true)
    by (apply Z.leb_le; lia).
  rewrite Hle. cbn [orb].
  unfold trailingEdge, invokeFunc. rewrite Hargs.
  cbn [trailing Timed.saveOptions lastCallTime timerId].
  destruct (debouncedSave state w) as [settled w']. rewrite Hcalled. reflexivity.
Qed.

(** A call of [saveProgress] with a timer pending that is not overdue: the
    wrapper takes the state and leaves the timer as it is. *)
Lemma saveProgress_call_pending
    (state : GameState num) (d : Wrapper) (w w0 : World num)
    (currentState : ApiResponse (GameStateWithVersion num))
    (current : GameStateWithVersion num) (due : Z) :
  fetchGameState w = (Normal currentState, w0) ->
  success currentState = true ->
  data currentState = Some current ->
  timerId d = Some due ->
  shouldInvoke SAVE_DEBOUNCE_TIME Timed.saveOptions d (clock w0) = false ->
  Timed.saveProgress state d w
  = (resolved (result d),
     {| lastArgs := Some (nextVersion state current); result := result d;
        timerId := Some due; lastCallTime := Some (clock w0);
        lastInvokeTime := lastInvokeTime d |},
     w0).
Proof.
  intros Hload Hok Hdata Htimer Hquiet.
  unfold Timed.saveProgress, then_, catch_, lift, unit_, adopt.
  rewrite Hload, Hok, Hdata. cbv zeta.
  unfold Timed.debouncedSave, debounced. cbv zeta.
  rewrite Htimer, Hquiet. reflexivity.
Qed.

(** The timer coming due too early, a call having come in the meantime: it is
    set again for the time that is left. *)
Lemma saveTimer_rearms (d : Wrapper) (w : World num) (due : Z) :
  timerId d = Some due ->
  due <= clock w ->
  shouldInvoke SAVE_DEBOUNCE_TIME Timed.saveOptions d (clock w) = false ->
  Timed.saveTimer d w
  = (Normal tt,
     {| lastArgs := lastArgs d; result := result d;
        timerId :=
          Some (clock w
                + Z.max 0 (remainingWait SAVE_DEBOUNCE_TIME Timed.saveOptions d (clock w)));
        lastCallTime := lastCallTime d; lastInvokeTime := lastInvokeTime d |},
     w).
Proof.
  intros Htimer Hdue Hquiet.
  unfold Timed.saveTimer, dueTimer. rewrite Htimer.
  apply Z.leb_le in Hdue. rewrite Hdue.
  unfold timerExpired. rewrite Hquiet. reflexivity.
Qed.


End TimedFacts.

(** ** The claims at concrete browsers *)

Import Scenario.




(** C5 at two browsers: a load answered with a valid state, and a load
    answered with 401 while a valid copy sits in the cache. *)
Lemma fetchGameState_load_policy_witness :
  savedState (snd (fetchGameState (browser true None [] [loaded])))
  = Some (JSON_stringify serverState)
  /\ fst (fetchGameState (browser true (Some (JSON_stringify serverState)) [] [unauthorized]))
     = Normal (failed "Authentication required"%string).
Proof.
  split.
  - pose (w := browser true None [] [loaded]).
    assert (Htok : truthy (token w) = Some "secret"%string) by reflexivity.
    assert (Hget : retryWithBackoff (axios (loadRequest "secret"%string)) MAX_RETRY_ATTEMPTS w
                   = (Normal (JsonState (fields serverState) (Some 7)),
                      snd (retryWithBackoff (axios (loadRequest "secret"%string))
                             MAX_RETRY_ATTEMPTS w)))
      by (vm_compute; reflexivity).
    destruct (@fetchGameState_load_policy Q w _ "secret"%string _ Htok Hget) as [Hremote _].
    destruct (Hremote _ serverState eq_refl eq_refl) as [_ Hcache]. exact Hcache.
  - pose (w := browser true (Some (JSON_stringify serverState)) [] [unauthorized]).
    assert (Htok : truthy (token w) = Some "secret"%string) by reflexivity.
    assert (Hget : retryWithBackoff (axios (loadRequest "secret"%string)) MAX_RETRY_ATTEMPTS w
                   = (Thrown (AxiosError (Some 401)
                                "Request failed with status code 401"%string),
                      snd (retryWithBackoff (axios (loadRequest "secret"%string))
                             MAX_RETRY_ATTEMPTS w)))
      by (vm_compute; reflexivity).
    destruct (@fetchGameState_load_policy Q w _ "secret"%string _ Htok Hget)
      as (_ & _ & Hauth).
    destruct (Hauth _ eq_refl) as [Hrun _]. fold w. rewrite Hrun. reflexivity.
Defined.

(** C10 at an online browser whose server answers both loads and rejects the
    write with 412. *)
Lemma optimistic_write_precedes_save_witness :
  let w := browser true None [] [loaded; loaded; conflict] in
  savedState (snd (replay (upgrade Cpu 2) w)) = Some (JSON_stringify serverState).
Proof.
  cbv zeta.
  pose (w := browser true None [] [loaded; loaded; conflict]).
  assert (Hload : fetchGameState w
                  = (Normal (succeeded (Some serverState)), snd (fetchGameState w)))
    by (vm_compute; reflexivity).
  assert (Htok : truthy (token w) = Some "secret"%string) by reflexivity.
  destruct (@optimistic_write_precedes_save Q (upgrade Cpu 2) w (snd (fetchGameState w))
              (succeeded (Some serverState)) serverState "secret"%string
              eq_refl Hload eq_refl eq_refl Htok)
    as (_ & _ & _ & Hfail).
  fold w.
  assert (Hrun : fst (replay (upgrade Cpu 2) w)
                 = Normal (failed "Request failed with status code 412"%string))
    by (vm_compute; reflexivity).
  rewrite (Hfail eq_refl _ Hrun eq_refl). vm_compute. reflexivity.
Defined.

(** C10, the input that refutes the retained optimistic value: online, the
    load of [upgradePart] and the load of its save both succeed and the write
    is rejected with 412.  The call fails, and the cache holds the state the
    server sent (cpu at level 1), not the optimistic one (cpu at level 2). *)
Lemma upgradePart_failed_save_leaves_remote_state :
  let w := browser true None [] [loaded; loaded; conflict] in
  let run := upgradePart Cpu 2 w in
  let optimistic := optimisticState (upgrade Cpu 2) serverState in
  onLine w = true
  /\ fst (fetchGameState w) = Normal (succeeded (Some serverState))
  /\ fst run = Normal (failed "Request failed with status code 412"%string)
  /\ In (Cached (JSON_stringify optimistic)) (trace (snd run))
  /\ savedState (snd run) = Some (JSON_stringify serverState)
  /\ savedState (snd run) <> Some (JSON_stringify optimistic).
Proof.
  cbv zeta. repeat split; try (vm_compute; reflexivity).
  - vm_compute. right. right. left. reflexivity.
  - vm_compute. intros E. discriminate E.
Qed.

(** C2, the failing input: three operations queued at timestamps 100, 200 and
    300; online, the replay of the second one fails (its load is answered with
    500).  The replays run in timestamp order, the failed replay returns a
    failure result instead of throwing, and [processQueue] goes on: all three
    operations are gone from the queue, where the second and third should have
    stayed. *)
Theorem processQueue_removes_failed_replay :
  let w := browser true None [third; first; second]
             [loaded; loaded; accepted; serverError; loaded; accepted] in
  let afterFirst := drop first (snd (replay (op first) w)) in
  sortByTimestamp (operationQueue w) = [first; second; third]
  /\ fst (replay (op first) w) = Normal (succeeded None)
  /\ fst (replay (op second) afterFirst) = Normal (failed "Failed to fetch current state"%string)
  /\ operationQueue (snd (processQueue w)) = []
  /\ operationQueue (snd (processQueue w)) <> [second; third]
  /\ sent (snd (processQueue w)) = 6%nat.
Proof.
  cbv zeta. repeat split; try (vm_compute; reflexivity).
  vm_compute. intros E. discriminate E.
Qed.

(** * Further properties *)

(** ** Economy *)

Lemma calculateHashRate_step (part : PartKey) (l : Z) :
  (calculateHashRate (num:=Q) part l < calculateHashRate (num:=Q) part (l + 1))%Q.
Proof.
  unfold calculateHashRate. cbv zeta.
  apply Qmult_lt_l; [destruct part; reflexivity|].
  apply Qpower_lt_compat_l; [lia | destruct part; reflexivity].
Qed.

Lemma calculateTotalHashRate_sum (ps : Parts) :
  calculateTotalHashRate (num:=Q) ps
  = (0 + calculateHashRate Cpu (cpu ps) + calculateHashRate Gpu (gpu ps)
     + calculateHashRate Motherboard (motherboard ps)
     + calculateHashRate Psu (psu ps) + calculateHashRate Ram (ram ps))%Q.
Proof. reflexivity. Qed.

(** X1.  On the levels the game reaches, every part between 1 and its
    maximum, raising a part that is below its maximum by one level strictly
    raises the earnings per second. *)
Theorem upgrade_raises_earnings (ps : Parts) (part : PartKey) :
  levelsFromOne ps ->
  levelsWithinMax ps ->
  level ps part < maxLevel (partConfigs (num:=Q) part) ->
  (calculateEarningsPerSecond (num:=Q) ps
   < calculateEarningsPerSecond (num:=Q) (setLevel ps part (level ps part + 1)))%Q.
Proof.
  intros _ _ _.
  unfold calculateEarningsPerSecond. cbv zeta.
  rewrite !calculateTotalHashRate_sum.
  pose proof (calculateHashRate_step part (level ps part)) as Hstep.
  cbn [mul exact lit].
  destruct part; cbn [setLevel level cpu gpu motherboard psu ram] in *;
    match type of Hstep with (?a < ?b)%Q => generalize dependent a; generalize b end;
    intros; lra.
Qed.

(** X1 at the initial inventory and the cpu. *)
Lemma upgrade_raises_earnings_witness :
  (calculateEarningsPerSecond (num:=Q) (parts (initialState (num:=Q) 0))
   < calculateEarningsPerSecond (num:=Q)
       (setLevel (parts (initialState (num:=Q) 0)) Cpu 2))%Q.
Proof.
  apply (@upgrade_raises_earnings (parts (initialState (num:=Q) 0)) Cpu).
  - intros part. destruct part; vm_compute; discriminate.
  - intros part. destruct part; vm_compute; discriminate.
  - reflexivity.
Defined.

(** X2.  Every inventory whose levels are 1 or more is profitable: the
    earnings per second are positive. *)
Theorem isMiningProfitable_always (ps : Parts) :
  levelsFromOne ps ->
  isMiningProfitable (num:=Q) ps = true.
Proof.
  intros _.
  unfold isMiningProfitable, calculateEarningsPerSecond. cbv zeta.
  rewrite calculateTotalHashRate_sum.
  pose proof (calculateHashRate_pos Cpu (cpu ps)).
  pose proof (calculateHashRate_pos Gpu (gpu ps)).
  pose proof (calculateHashRate_pos Motherboard (motherboard ps)).
  pose proof (calculateHashRate_pos Psu (psu ps)).
  pose proof (calculateHashRate_pos Ram (ram ps)).
  cbn [ltb exact ofZ lit mul]. unfold Qltb.
  destruct (Qle_bool _ _) eqn:E; [|reflexivity].
  apply Qle_bool_iff in E. lra.
Qed.

(** X2 at the initial inventory. *)
Lemma isMiningProfitable_always_witness :
  isMiningProfitable (num:=Q) (parts (initialState (num:=Q) 0)) = true.
Proof.
  apply (@isMiningProfitable_always (parts (initialState (num:=Q) 0))).
  intros part. destruct part; vm_compute; discriminate.
Defined.

Lemma Qmult_le_compat_l_nonneg (x y z : Q) :
  (0 <= z)%Q -> (x <= y)%Q -> (z * x <= z * y)%Q.
Proof.
  intros Hz Hxy. rewrite (Qmult_comm z x), (Qmult_comm z y).
  apply Qmult_le_compat_r; assumption.
Qed.

Lemma Qfloor_nonneg (x : Q) : (0 <= x)%Q -> (0 <= inject_Z (Qfloor x))%Q.
Proof.
  intros Hx. change 0%Q with (inject_Z 0). rewrite <- Zle_Qle.
  rewrite <- (Qfloor_Z 0). apply Qfloor_resp_le. exact Hx.
Qed.

Lemma offline_earnings_monotone (eps : Q) (t1 t2 : Z) :
  (0 <= eps)%Q -> t1 <= t2 ->
  (floor (num:=Q) (eps * ofZ t1 * lit 5 10)%js <= floor (eps * ofZ t2 * lit 5 10)%js)%Q.
Proof.
  intros Heps Ht. cbn [floor exact]. rewrite <- Zle_Qle. apply Qfloor_resp_le.
  cbn [mul exact ofZ lit].
  apply Qmult_le_compat_r; [|discriminate].
  apply Qmult_le_compat_l_nonneg; [exact Heps|].
  change (t1 # 1) with (inject_Z t1). change (t2 # 1) with (inject_Z t2).
  rewrite <- Zle_Qle. exact Ht.
Qed.

(** X3.  Offline earnings grow with the time away and are bounded: whatever
    the gap, they never exceed [floor(earningsPerSecond * 86400 * 0.5)], and
    they are not negative when the clock is not behind the state. *)
Theorem offline_earnings_bounded (gameState : GameState Q) (now1 now2 : Z) :
  now1 <= now2 ->
  let eps := calculateEarningsPerSecond (parts gameState) in
  (earnings (calculateOfflineEarnings gameState now1)
   <= earnings (calculateOfflineEarnings gameState now2))%Q
  /\ (earnings (calculateOfflineEarnings gameState now2)
      <= floor (eps * ofZ 86400 * lit 5 10)%js)%Q
  /\ (lastUpdated gameState <= now1 ->
      (0 <= earnings (calculateOfflineEarnings gameState now1))%Q).
Proof.
  intros Hnow. cbv zeta. unfold calculateOfflineEarnings. cbn [earnings].
  change (24 * 60 * 60) with 86400.
  pose proof (calculateEarningsPerSecond_nonneg (parts gameState)) as Heps.
  split; [|split].
  - apply offline_earnings_monotone; [exact Heps|].
    apply Z.min_le_compat_r. apply Z.div_le_mono; lia.
  - apply offline_earnings_monotone; [exact Heps|]. apply Z.le_min_r.
  - intros Hle. cbn [floor exact mul ofZ lit].
    apply Qfloor_nonneg.
    apply Qmult_le_0_compat; [|discriminate].
    apply Qmult_le_0_compat; [exact Heps|].
    match goal with |- (0 <= ?t # 1)%Q => change (inject_Z 0 <= inject_Z t)%Q end.
    rewrite <- Zle_Qle. apply Z.min_glb; [apply Z.div_pos|]; lia.
Qed.

(** X3 at the initial state, one hour and three days after its stamp. *)
Lemma offline_earnings_bounded_witness :
  let gameState := initialState (num:=Q) 0 in
  (earnings (calculateOfflineEarnings gameState 3600000)
   <= earnings (calculateOfflineEarnings gameState 259200000))%Q
  /\ (earnings (calculateOfflineEarnings gameState 259200000) <= 103680)%Q.
Proof.
  cbv zeta.
  destruct (@offline_earnings_bounded (initialState 0) 3600000 259200000 ltac:(lia))
    as (Hmono & Hcap & _).
  split; [exact Hmono|].
  apply (Qle_trans _ _ _ Hcap). vm_compute. discriminate.
Defined.

(** ** Part efficiency *)

Lemma calculateUpgradeCost_at_least_base (part : PartKey) (l : Z) :
  0 <= l ->
  (basePrice (partConfigs (num:=Q) part) <= calculateUpgradeCost (num:=Q) part l)%Q.
Proof.
  intros Hl. unfold calculateUpgradeCost. cbv zeta. cbn [floor exact mul pow].
  assert (Hpow : (1 <= priceMultiplier (partConfigs (num:=Q) part) ^ l)%Q)
    by (apply Qpower_1_le; [destruct part; discriminate | exact Hl]).
  assert (Hbase : exists z, basePrice (partConfigs (num:=Q) part) = inject_Z z /\ 0 < z)
    by (destruct part; eexists; split; reflexivity).
  destruct Hbase as (z & -> & Hz).
  rewrite <- Zle_Qle. rewrite <- (Qfloor_Z z) at 1. apply Qfloor_resp_le.
  rewrite <- (Qmult_1_r (inject_Z z)) at 1.
  apply Qmult_le_compat_l_nonneg; [|exact Hpow].
  change 0%Q with (inject_Z 0). rewrite <- Zle_Qle. lia.
Qed.

Lemma efficiency_table_decreasing (part : PartKey) :
  increasingOn (num:=Q)
    (fun l => (- hashPerCost (calculatePartEfficiency (num:=Q) part l))%Q)
    (levelsUpTo (maxLevel (partConfigs (num:=Q) part))) = true.
Proof. destruct part; vm_compute; reflexivity. Qed.

(** X4.  Upgrades have diminishing returns: on the levels 1..maxLevel of
    every part the hash rate per unit of cost strictly falls with the level;
    and the cost it divides by is positive at both levels. *)
Theorem efficiency_decreasing (part : PartKey) (l1 l2 : Z) :
  1 <= l1 -> l1 < l2 -> l2 <= maxLevel (partConfigs (num:=Q) part) ->
  (hashPerCost (calculatePartEfficiency (num:=Q) part l2)
   < hashPerCost (calculatePartEfficiency (num:=Q) part l1))%Q
  /\ (0 < calculateUpgradeCost (num:=Q) part l1)%Q
  /\ (0 < calculateUpgradeCost (num:=Q) part l2)%Q.
Proof.
  intros H1 H12 H2.
  pose proof (increasingOn_lt _ (efficiency_table_decreasing part) H1 H12 H2) as Hdec.
  cbv beta in Hdec.
  assert (Hpos : forall l, 0 <= l -> (0 < calculateUpgradeCost (num:=Q) part l)%Q).
  { intros l Hl. apply (Qlt_le_trans _ (basePrice (partConfigs (num:=Q) part))).
    - destruct part; reflexivity.
    - apply calculateUpgradeCost_at_least_base. exact Hl. }
  split; [lra|]. split; apply Hpos; lia.
Qed.

(** X4 at the gpu, levels 3 and 4. *)
Lemma efficiency_decreasing_witness :
  (hashPerCost (calculatePartEfficiency (num:=Q) Gpu 4)
   < hashPerCost (calculatePartEfficiency (num:=Q) Gpu 3))%Q.
Proof.
  apply (@efficiency_decreasing Gpu 3 4); vm_compute; congruence.
Defined.

(** ** Durations *)

Lemma Qltb_floor (x : Q) (z : Z) : Qltb x (inject_Z z) = (Qfloor x <? z).
Proof.
  destruct (Qfloor x <? z) eqn:E.
  - apply Z.ltb_lt in E. unfold Qltb. apply negb_true_iff.
    destruct (Qle_bool (inject_Z z) x) eqn:Hle; [|reflexivity].
    apply Qle_bool_iff in Hle. apply Qfloor_resp_le in Hle.
    rewrite Qfloor_Z in Hle. lia.
  - apply Z.ltb_ge in E. unfold Qltb. apply negb_false_iff. apply Qle_bool_iff.
    apply (Qle_trans _ (inject_Z (Qfloor x))); [|apply Qfloor_le].
    rewrite <- Zle_Qle. exact E.
Qed.

Lemma Qfloor_add_Z (x : Q) (z : Z) : Qfloor (x + inject_Z z) = Qfloor x + z.
Proof.
  destruct x as [a b]. unfold Qplus, inject_Z, Qfloor. cbn [Qnum Qden].
  rewrite Pos.mul_1_r, Z.mul_1_r. apply Z.div_add. discriminate.
Qed.

Lemma Qfloor_div_Z (x : Q) (k : positive) :
  Qfloor (x / inject_Z (Zpos k)) = Qfloor x / Zpos k.
Proof.
  destruct x as [a b]. unfold Qdiv, Qmult, Qinv, inject_Z, Qfloor. cbn [Qnum Qden].
  rewrite Z.mul_1_r, Pos2Z.inj_mul. symmetry. apply Z.div_div; lia.
Qed.

Lemma Qrem_floor (x : Q) (k : positive) :
  (0 <= x)%Q ->
  Qfloor (Qrem x (inject_Z (Zpos k))) = Qfloor x mod Zpos k.
Proof.
  intros Hx. unfold Qrem. apply Qle_bool_iff in Hx. rewrite Hx.
  rewrite Qfloor_div_Z.
  assert (E : (x - inject_Z (Zpos k) * inject_Z (Qfloor x / Zpos k)
               == x + inject_Z (- (Zpos k * (Qfloor x / Zpos k))))%Q)
    by (rewrite inject_Z_opp, inject_Z_mult; ring).
  rewrite E, Qfloor_add_Z, Z.mod_eq by discriminate. lia.
Qed.

Lemma formatTime_floor (seconds : Q) :
  formatTime seconds = formatWholeSeconds (Qfloor seconds).
Proof.
  unfold formatTime, formatWholeSeconds.
  change 60%Q with (inject_Z 60). change 3600%Q with (inject_Z 3600).
  rewrite !Qltb_floor.
  destruct (Qfloor seconds <? 60) eqn:E60; [reflexivity|].
  apply Z.ltb_ge in E60.
  assert (Hpos : (0 <= seconds)%Q).
  { apply (Qle_trans _ (inject_Z (Qfloor seconds))); [|apply Qfloor_le].
    change 0%Q with (inject_Z 0). rewrite <- Zle_Qle. lia. }
  destruct (Qfloor seconds <? 3600).
  - rewrite Qfloor_div_Z, Qrem_floor by exact Hpos. reflexivity.
  - rewrite !Qfloor_div_Z, Qrem_floor by exact Hpos. reflexivity.
Qed.

(** X5.  [formatTime] shows whole seconds: its text depends on the floor of
    the duration only, and splits it by integer division into seconds below a
    minute, minutes and seconds below an hour, and hours and minutes from
    there on.  So the provider's [miningTime] is that split of the whole
    seconds since [miningStartTime], and '0s' when mining has not started. *)
Theorem formatTime_whole_seconds :
  (forall seconds : Q, formatTime seconds = formatWholeSeconds (Qfloor seconds))
  /\ (forall (state : GameState Q) (now : Z),
        miningTime state now
        = match miningStartTime state with
          | Some start => formatWholeSeconds ((now - start) / 1000)
          | None => "0s"%string
          end).
Proof.
  split; [exact formatTime_floor|].
  intros state now. unfold miningTime.
  destruct (miningStartTime state) as [start|]; [|reflexivity].
  rewrite formatTime_floor. reflexivity.
Qed.

(** ** The store *)

(** X6.  [miningStartTime] is present exactly while mining: the initial state
    has it so, and every transition keeps it so ([SET_GAME_STATE] when its
    payload has it so). *)
Theorem mining_start_time_tracks_mining {num} `{JSNumber num}
    (state : GameState num) (action : GameAction num) (now : Z) :
  miningConsistent state ->
  match action with
  | SET_GAME_STATE payload => miningConsistent payload
  | _ => True
  end ->
  miningConsistent (gameReducer state action now)
  /\ miningConsistent (initialState (num:=num) now).
Proof.
  unfold miningConsistent. intros Hstate Hpayload.
  split; [|cbn; split; [discriminate | intros E; now elim E]].
  destruct action; cbn [gameReducer isMining miningStartTime];
    try exact Hstate; try exact Hpayload.
  - split; [discriminate | reflexivity].
  - split; [discriminate | intros E; now elim E].
Qed.

(** X6 at the initial state and the start of mining. *)
Lemma mining_start_time_tracks_mining_witness :
  miningConsistent (gameReducer (initialState (num:=Q) 0) START_MINING 1000).
Proof.
  apply (@mining_start_time_tracks_mining Q _ (initialState 0) START_MINING 1000).
  - cbn. split; [discriminate | intros E; now elim E].
  - exact I.
Defined.



(** X8.  The initial-load effect replaces the state by the loaded one and
    adds the offline earnings to [balance] and [totalMined] exactly when they
    are positive and were not shown before: then both go up by the earnings,
    and otherwise (earnings of 0 or less, or the notification already shown)
    both are exactly what was loaded.  So it never leaves less than was
    loaded; parts, hash rates and the mining fields are the loaded ones in
    every case. *)
Theorem initial_load_keeps_loaded_amounts
    (data before : GameState Q) (currentTime now : Z) (shown : bool) :
  let offline := earnings (calculateOfflineEarnings data currentTime) in
  let after := dispatchAll (initialLoadActions data currentTime shown) before now in
  (parts after = parts data /\ hashRates after = hashRates data
   /\ isMining after = isMining data /\ miningStartTime after = miningStartTime data
   /\ lastUpdated after = now)
  /\ (balance data <= balance after)%Q
  /\ (totalMined data <= totalMined after)%Q
  /\ (shown = false /\ (0 < offline)%Q ->
      balance after = (balance data + offline)%Q
      /\ totalMined after = (totalMined data + offline)%Q)
  /\ (shown = true \/ (offline <= 0)%Q ->
      balance after = balance data /\ totalMined after = totalMined data).
Proof.
  cbv zeta. unfold initialLoadActions. cbv zeta.
  generalize (calculateOfflineEarnings data currentTime). intros offline.
  assert (Hneg : ltb (ofZ 0) (earnings offline) = false ->
                 ~ (0 < earnings offline)%Q).
  { cbn [ltb exact ofZ lit]. unfold Qltb. intros Hb Hlt.
    apply negb_false_iff, Qle_bool_iff in Hb. lra. }
  destruct (ltb (ofZ 0) (earnings offline)) eqn:Hpos; destruct shown;
    cbn [andb negb dispatchAll fold_left gameReducer parts balance totalMined
         hashRates isMining miningStartTime lastUpdated].
  - split; [repeat split|]. split; [apply Qle_refl|]. split; [apply Qle_refl|].
    split; [intros [Hs _]; discriminate Hs | intros _; split; reflexivity].
  - apply Qltb_lt in Hpos. split; [repeat split|].
    split; [apply Qle_add_nonneg, Qlt_le_weak, Hpos|].
    split; [apply Qle_add_nonneg, Qlt_le_weak, Hpos|].
    split; [intros _; split; reflexivity|].
    intros [Hs | Hle]; [discriminate Hs | elim (Qlt_not_le _ _ Hpos Hle)].
  - split; [repeat split|]. split; [apply Qle_refl|]. split; [apply Qle_refl|].
    split; [intros [Hs _]; discriminate Hs | intros _; split; reflexivity].
  - split; [repeat split|]. split; [apply Qle_refl|]. split; [apply Qle_refl|].
    split; [intros [_ Hlt]; elim (Hneg eq_refl Hlt) | intros _; split; reflexivity].
Qed.

(** ** The upgrade button *)

Lemma Qle_bool_true (a b : Q) : Qle_bool a b = true -> (a <= b)%Q.
Proof. apply Qle_bool_iff. Qed.

(** X9.  A click on an upgrade button, from a state whose levels are within
    their maxima and whose balance is not negative, leaves such a state: when
    the button is enabled the part goes up by one level and the balance down
    by the upgrade cost; when it is disabled nothing is dispatched.  The other
    parts and [totalMined] are as before. *)
Theorem clickUpgrade_keeps_store_valid
    (state : GameState Q) (part : PartKey) (now : Z) :
  levelsWithinMax (parts state) ->
  (0 <= balance state)%Q ->
  let cost := calculateUpgradeCost (num:=Q) part (level (parts state) part) in
  let enabled := negb (isMaxLevel (num:=Q) part (level (parts state) part))
                 && canAfford part (level (parts state) part) (balance state) in
  let after := dispatchAll (clickUpgrade state part) state now in
  levelsWithinMax (parts after)
  /\ (0 <= balance after)%Q
  /\ totalMined after = totalMined state
  /\ (forall other, other <> part -> level (parts after) other = level (parts state) other)
  /\ (enabled = true ->
      level (parts after) part = level (parts state) part + 1
      /\ balance after = (balance state - cost)%Q)
  /\ (enabled = false -> clickUpgrade state part = [] /\ after = state).
Proof.
  intros Hinv Hbal. cbv zeta. unfold clickUpgrade, handleUpgrade, canAfford. cbv zeta.
  unfold isMaxLevel.
  destruct (maxLevel (partConfigs (num:=Q) part) <=? level (parts state) part) eqn:Hmax;
    cbn [orb negb andb].
  { cbn [dispatchAll fold_left]. repeat split; auto; discriminate. }
  destruct (leb (calculateUpgradeCost part (level (parts state) part)) (balance state))
    eqn:Hafford; cbn [negb].
  - apply Z.leb_gt in Hmax. apply Qle_bool_true in Hafford.
    cbn [dispatchAll fold_left gameReducer parts balance totalMined].
    split; [|split; [|split; [|split; [|split]]]].
    + intros p. rewrite level_setLevel.
      destruct (PartKey_eqb part p) eqn:E; [|apply Hinv].
      apply PartKey_eqb_eq in E. subst p. lia.
    + cbn [sub exactArith]. lra.
    + reflexivity.
    + intros other Hother. rewrite level_setLevel.
      destruct (PartKey_eqb part other) eqn:E; [|reflexivity].
      apply PartKey_eqb_eq in E. congruence.
    + intros _. rewrite level_setLevel.
      assert (E : PartKey_eqb part part = true) by (apply PartKey_eqb_eq; reflexivity).
      rewrite E. split; reflexivity.
    + discriminate.
  - cbn [dispatchAll fold_left]. repeat split; auto; discriminate.
Qed.

(** X9 at the initial state with 1000 in the balance and the cpu button. *)
Lemma clickUpgrade_keeps_store_valid_witness :
  let state := gameReducer (initialState (num:=Q) 0) (UPDATE_BALANCE 1000%Q) 0 in
  let after := dispatchAll (clickUpgrade state Cpu) state 5 in
  level (parts after) Cpu = 2 /\ (balance after == 850)%Q.
Proof.
  cbv zeta.
  destruct (@clickUpgrade_keeps_store_valid
              (gameReducer (initialState 0) (UPDATE_BALANCE 1000%Q) 0) Cpu 5)
    as (_ & _ & _ & _ & Henabled & _).
  - intros p. destruct p; vm_compute; discriminate.
  - vm_compute. discriminate.
  - destruct (Henabled eq_refl) as [Hlevel Hbalance].
    split; [exact Hlevel | rewrite Hbalance; reflexivity].
Defined.

(** X10.  [handleUpgrade] itself does not look at the maximum level: called
    for a part at its maximum with the cost covered, it raises the part beyond
    the maximum.  Only the disabled button stands in the way. *)
Theorem handleUpgrade_ignores_max_level
    (state : GameState Q) (part : PartKey) (now : Z) :
  level (parts state) part = maxLevel (partConfigs (num:=Q) part) ->
  (calculateUpgradeCost part (level (parts state) part) <= balance state)%Q ->
  let after := dispatchAll (handleUpgrade state part) state now in
  level (parts after) part = maxLevel (partConfigs (num:=Q) part) + 1
  /\ ~ levelsWithinMax (parts after)
  /\ clickUpgrade state part = [].
Proof.
  intros Hmax Hafford. cbv zeta. unfold clickUpgrade, handleUpgrade, isMaxLevel. cbv zeta.
  apply Qle_bool_iff in Hafford. cbn [leb exact]. rewrite Hafford.
  cbn [dispatchAll fold_left gameReducer parts].
  assert (E : PartKey_eqb part part = true) by (apply PartKey_eqb_eq; reflexivity).
  assert (Hlevel : level (setLevel (parts state) part (level (parts state) part + 1)) part
                   = maxLevel (partConfigs (num:=Q) part) + 1)
    by (rewrite level_setLevel, E, Hmax; reflexivity).
  split; [exact Hlevel|]. split.
  - intros Hinv. specialize (Hinv part). rewrite Hlevel in Hinv. lia.
  - rewrite Hmax, Z.leb_refl. reflexivity.
Qed.

(** X10 at a psu at level 12 with a million in the balance. *)
Lemma handleUpgrade_ignores_max_level_witness :
  let state :=
    gameReducer (gameReducer (initialState (num:=Q) 0) (UPGRADE_PART Psu 12) 0)
      (UPDATE_BALANCE 1000000%Q) 0 in
  level (parts (dispatchAll (handleUpgrade state Psu) state 5)) Psu = 13.
Proof.
  cbv zeta.
  destruct (@handleUpgrade_ignores_max_level
              (gameReducer (gameReducer (initialState 0) (UPGRADE_PART Psu 12) 0)
                 (UPDATE_BALANCE 1000000%Q) 0) Psu 5)
    as (Hlevel & _).
  - reflexivity.
  - vm_compute. discriminate.
  - exact Hlevel.
Defined.

(** ** The sync engine, continued *)

Section SyncMore.

Context {num : Type}.

Local Abbreviation World := (World num).
Local Abbreviation Async := (@Async num).

Ltac simpl_world :=
  cbn [token savedState operationQueue onLine clock network sent created trace
       record store elapse answer push drop fst snd] in *.

(** *** Retries *)

(** X11.  [retryWithBackoff] re-runs an operation for connectivity failures
    only: when the operation returns, or throws anything but an axios error
    without a response, the outcome is the operation's own, whatever the
    number of retries allowed. *)
Theorem retry_only_connectivity_failures {A} (operation : Async A) (retries : nat) (w : World) :
  (forall e, fst (operation w) = Thrown e -> noResponse e = false) ->
  retryWithBackoff operation retries w = operation w.
Proof.
  intros Hkind. destruct retries as [|retries].
  - apply retryWithBackoff_O.
  - rewrite retryWithBackoff_S.
    destruct (operation w) as [[a|e] w'] eqn:Hrun; [reflexivity|].
    rewrite (Hkind e eq_refl). reflexivity.
Qed.

Lemma retryWithBackoff_clock (request : Request) (retries : nat) :
  forall w : World,
  clock (snd (retryWithBackoff (axios request) retries w))
  = clock w
    + waitSum (Z.of_nat MAX_RETRY_ATTEMPTS - Z.of_nat retries + 1)
        (unanswered (network w) (sent w) retries).
Proof.
  induction retries as [|retries IH]; intros w.
  - rewrite retryWithBackoff_O, axios_run. cbn [unanswered waitSum]. simpl_world. lia.
  - rewrite retryWithBackoff_S, axios_run. cbn [unanswered].
    destruct (network w (sent w)) as [message|status body] eqn:Hreply; cbn [isNoReply].
    + cbn [settle noResponse]. cbv zeta. rewrite IH. simpl_world. cbn [waitSum].
      replace (Z.of_nat MAX_RETRY_ATTEMPTS - Z.of_nat (S retries) + 1 + 1)
        with (Z.of_nat MAX_RETRY_ATTEMPTS - Z.of_nat retries + 1) by lia.
      lia.
    + destruct (settle_answered status body) as (c & -> & Hc).
      destruct c as [a|e]; [|rewrite Hc]; cbn [waitSum]; simpl_world; lia.
Qed.

(** X12.  The backoff of a request is bounded in time: with [k] attempts
    unanswered before the first reply ([k] at most 3), the waits add up to
    [500 * k * (k + 1)] ms on the clock, 6000 ms at most. *)
Theorem retry_backoff_time (request : Request) (w : World) :
  let k := Z.of_nat (unanswered (network w) (sent w) MAX_RETRY_ATTEMPTS) in
  let w' := snd (retryWithBackoff (axios request) MAX_RETRY_ATTEMPTS w) in
  clock w' = clock w + 500 * k * (k + 1)
  /\ clock w <= clock w' <= clock w + 6000.
Proof.
  cbv zeta. rewrite retryWithBackoff_clock.
  pose proof (unanswered_le (network w) MAX_RETRY_ATTEMPTS (sent w)) as Hle.
  change (Z.of_nat MAX_RETRY_ATTEMPTS - Z.of_nat MAX_RETRY_ATTEMPTS + 1) with 1.
  destruct (unanswered (network w) (sent w) MAX_RETRY_ATTEMPTS) as [|[|[|[|k]]]];
    cbn; try lia.
  unfold MAX_RETRY_ATTEMPTS in Hle. lia.
Qed.

(** *** Loading *)

Lemma upgradeMultipleParts_run (upgrades : list (PartKey * Z)) (w : World) :
  upgradeMultipleParts upgrades w =
  match fetchGameState w with
  | (Normal currentState, w0) =>
      match success currentState, data currentState with
      | true, Some current =>
          saveProgress
            (fields (withParts current (applyUpgrades (parts (fields current)) upgrades))) w0
      | _, _ => (Normal (failed "Failed to fetch current state"), w0)
      end
  | (Thrown e, w0) => (Normal (failed (messageOf e)), w0)
  end.
Proof.
  unfold upgradeMultipleParts, try_catch, bind. cbv zeta.
  destruct (fetchGameState w) as [[cur|e] w0]; [|reflexivity].
  destruct (success cur); [|reflexivity].
  destruct (data cur) as [d|]; [|reflexivity].
  match goal with |- context [saveProgress ?s w0] =>
    destruct (saveProgress_returns s w0) as (r & w' & ->) end.
  reflexivity.
Qed.

(** X13.  Without a stored token (none, or the empty string) nothing is sent
    and nothing is queued, online or offline: [fetchGameState] fails with 'No
    authentication token found', and [saveProgress], [upgradePart],
    [updateBalance] and [upgradeMultipleParts] fail with 'Failed to fetch
    current state'; the browser is left as it was. *)
Theorem without_token_nothing_happens
    (w : World) (state : GameState num) (o : Operation) (upgrades : list (PartKey * Z)) :
  truthy (token w) = None ->
  fetchGameState w = (Normal (failed "No authentication token found"), w)
  /\ saveProgress state w = (Normal (failed "Failed to fetch current state"), w)
  /\ replay o w = (Normal (failed "Failed to fetch current state"), w)
  /\ upgradeMultipleParts upgrades w = (Normal (failed "Failed to fetch current state"), w).
Proof.
  intros Htok.
  assert (Hload : fetchGameState w = (Normal (failed "No authentication token found"), w))
    by (rewrite fetchGameState_run, Htok; reflexivity).
  assert (Hsave : forall s, saveProgress s w
                            = (Normal (failed "Failed to fetch current state"), w))
    by (intros s; rewrite saveProgress_run, Hload; reflexivity).
  split; [exact Hload|]. split; [apply Hsave|]. split.
  - destruct o as [d|part lvl|b]; [apply Hsave| |];
      rewrite replay_optimistic_run by reflexivity; rewrite Hload; reflexivity.
  - rewrite upgradeMultipleParts_run, Hload. reflexivity.
Qed.

Lemma retryWithBackoff_answered
    (request : Request) (retries : nat) (w : World) (status : Z) (body : Json num) :
  network w (sent w) = Response status body ->
  retryWithBackoff (axios request) retries w = axios request w.
Proof.
  intros Hreply. destruct retries as [|retries]; [apply retryWithBackoff_O|].
  rewrite retryWithBackoff_S, axios_run, Hreply.
  destruct (settle_answered status body) as (c & -> & Hc).
  destruct c as [a|e]; [reflexivity|]. rewrite Hc. reflexivity.
Qed.

(** X14.  A reply that brings no valid state leaves the cache alone and is
    never replaced by the cached copy: an error status gives a failure at
    once ('Authentication required' for 401, the status message otherwise),
    and a 2xx body that does not validate gives a failure with the
    validation's message; in both cases one request went out and nothing else
    changed. *)
Theorem answered_load_never_falls_back
    (w : World) (tok : string) (status : Z) (body : Json num) :
  truthy (token w) = Some tok ->
  network w (sent w) = Response status body ->
  let w1 := record (Sent (loadRequest tok)) (answer w) in
  ((200 <=? status) && (status <? 300) = false ->
   fetchGameState w
   = (Normal (failed (if status =? 401 then "Authentication required"
                      else "Request failed with status code " ++ String_of_Z status)), w1))
  /\ ((200 <=? status) && (status <? 300) = true ->
      GameStateSchema_parse body = None ->
      exists message, fetchGameState w = (Normal (failed message), w1))
  /\ savedState w1 = savedState w.
Proof.
  intros Htok Hreply. cbv zeta.
  assert (Hretry : retryWithBackoff (axios (loadRequest tok)) MAX_RETRY_ATTEMPTS w
                   = axios (loadRequest tok) w).
  { apply retryWithBackoff_answered with (status := status) (body := body).
    exact Hreply. }
  rewrite fetchGameState_run, Htok, Hretry, axios_run, Hreply. cbn [settle].
  split; [|split; [|reflexivity]].
  - intros ->. cbn [noResponse statusIs]. destruct (status =? 401); reflexivity.
  - intros -> ->. eexists. reflexivity.
Qed.

Lemma silent_unanswered (net : nat -> @Reply num) (from : nat) :
  silent net from ->
  unanswered net from MAX_RETRY_ATTEMPTS = MAX_RETRY_ATTEMPTS
  /\ exists message, net (from + MAX_RETRY_ATTEMPTS)%nat = NoReply message.
Proof.
  intros Hsilent. unfold silent, MAX_RETRY_ATTEMPTS in *.
  pose proof (Hsilent 0%nat ltac:(lia)) as H0.
  pose proof (Hsilent 1%nat ltac:(lia)) as H1.
  pose proof (Hsilent 2%nat ltac:(lia)) as H2.
  pose proof (Hsilent 3%nat ltac:(lia)) as H3.
  rewrite Nat.add_0_r in H0.
  replace (from + 1)%nat with (S from) in H1 by lia.
  replace (from + 2)%nat with (S (S from)) in H2 by lia.
  split.
  - cbn [unanswered]. rewrite H0, H1, H2. reflexivity.
  - destruct (net (from + 3)%nat) as [message|]; [eauto | discriminate H3].
Qed.

(** With the network silent, a load returns the cached copy when it
    validates. *)
Lemma offline_load_returns_cache
    (w : World) (tok : string) (j : Json num) (s : GameStateWithVersion num) :
  truthy (token w) = Some tok ->
  savedState w = Some (JsonText j) ->
  GameStateSchema_parse j = Some s ->
  silent (network w) (sent w) ->
  fst (fetchGameState w) = Normal (succeeded (Some s)).
Proof.
  intros Htok Hcache Hparse Hsilent.
  destruct (silent_unanswered Hsilent) as (Hk & message & Hlast).
  destruct (retryWithBackoff_axios (loadRequest tok) MAX_RETRY_ATTEMPTS w)
    as (Hres & _ & _ & Hsaved & _).
  rewrite Hk, Hlast in Hres. cbn [settle] in Hres.
  rewrite fetchGameState_run, Htok.
  destruct (retryWithBackoff (axios (loadRequest tok)) MAX_RETRY_ATTEMPTS w) as [c w1].
  cbn [fst snd] in Hres, Hsaved. subst c. cbn [noResponse].
  rewrite Hsaved, Hcache, Hparse. reflexivity.
Qed.

(** A successful load leaves a cache that validates to the state it
    returned. *)
Lemma successful_load_cache
    (w w1 : World) (r : ApiResponse (GameStateWithVersion num)) :
  fetchGameState w = (Normal r, w1) ->
  success r = true ->
  exists s j tok,
    r = succeeded (Some s)
    /\ savedState w1 = Some (JsonText j) /\ GameStateSchema_parse j = Some s
    /\ truthy (token w1) = Some tok.
Proof.
  intros Hrun Hok. pose proof Hrun as Hframe. apply fetchGameState_frame in Hframe.
  destruct Hframe as ((Htoken & _) & _).
  rewrite fetchGameState_run in Hrun.
  destruct (truthy (token w)) as [tok|] eqn:Htok;
    [|injection Hrun as <- <-; discriminate Hok].
  rewrite Htoken.
  destruct (retryWithBackoff (axios (loadRequest tok)) MAX_RETRY_ATTEMPTS w) as [[j|e] w0].
  - destruct (GameStateSchema_parse j) as [s|] eqn:Hparse;
      injection Hrun as <- <-; [|discriminate Hok].
    exists s, (JsonState (fields s) (Some (version s))), tok.
    repeat split; try reflexivity; try exact Htok. destruct s; reflexivity.
  - destruct (noResponse e).
    + destruct (savedState w0) as [[j| |]|] eqn:Hcache;
        try (injection Hrun as <- <-; discriminate Hok).
      destruct (GameStateSchema_parse j) as [s|] eqn:Hparse;
        injection Hrun as <- <-; [|discriminate Hok].
      exists s, j, tok. auto.
    + destruct (statusIs 401 e); injection Hrun as <- <-; discriminate Hok.
Qed.

(** X15.  What a load returned is what later loads return while the network
    is silent: after a successful [fetchGameState], in any browser with the
    same token and cache, a load that gets no reply in four attempts returns
    the same result. *)
Theorem offline_load_repeats_last_load
    (w w1 w2 : World) (r : ApiResponse (GameStateWithVersion num)) :
  fetchGameState w = (Normal r, w1) ->
  success r = true ->
  token w2 = token w1 ->
  savedState w2 = savedState w1 ->
  silent (network w2) (sent w2) ->
  fst (fetchGameState w2) = Normal r.
Proof.
  intros Hrun Hok Htoken Hcache Hsilent.
  destruct (@successful_load_cache w w1 r Hrun Hok)
    as (s & j & tok & -> & Hsaved & Hparse & Htok).
  apply (@offline_load_returns_cache w2 tok j s); [congruence | congruence | | ]; assumption.
Qed.

(** X16.  No exception leaves the module: [fetchGameState], [saveProgress],
    [upgradePart], [updateBalance], [upgradeMultipleParts] and
    [processQueue] always come back with a result, in every browser and for
    every network. *)
Theorem api_never_throws
    (w : World) (state : GameState num) (o : Operation) (upgrades : list (PartKey * Z)) :
  (exists r w', fetchGameState w = (Normal r, w'))
  /\ (exists r w', saveProgress state w = (Normal r, w'))
  /\ (exists r w', replay o w = (Normal r, w'))
  /\ (exists r w', upgradeMultipleParts upgrades w = (Normal r, w'))
  /\ (exists w', processQueue w = (Normal tt, w')).
Proof.
  split; [apply fetchGameState_returns|]. split; [apply saveProgress_returns|].
  split; [apply replay_returns|]. split.
  - rewrite upgradeMultipleParts_run.
    destruct (fetchGameState w) as [[cur|e] w0]; eauto.
    destruct (success cur); eauto. destruct (data cur); eauto.
    apply saveProgress_returns.
  - unfold processQueue.
    destruct (negb (onLine w) || Nat.eqb (List.length (operationQueue w)) 0); eauto.
    generalize (sortByTimestamp (operationQueue w)). intros l. revert w.
    induction l as [|operation rest IH]; intros w; cbn [processQueue_loop].
    + unfold ret. eauto.
    + unfold bind at 1. unfold try_catch, bind, dequeue, ret.
      destruct (replay_returns (op operation) w) as (r & w1 & ->). apply IH.
Qed.

(** *** Saving and queueing *)

(** X17.  Offline, [upgradePart] and [updateBalance] defer: once their load
    has succeeded they write the optimistic state to the cache, append exactly
    one operation stamped with the clock to the queue, send nothing further
    and return a success carrying the 'queued' warning. *)
Theorem offline_mutation_is_queued
    (o : Operation) (w w0 : World)
    (currentState : ApiResponse (GameStateWithVersion num))
    (current : GameStateWithVersion num) :
  isOptimistic o = true ->
  fetchGameState w = (Normal currentState, w0) ->
  success currentState = true ->
  data currentState = Some current ->
  onLine w = false ->
  let text := JSON_stringify (optimisticState o current) in
  replay o w = (Normal (queued (queuedMessage o)), push o (record (Cached text) (store text w0)))
  /\ operationQueue (snd (replay o w))
     = operationQueue w ++ [{| ident := created w; op := o; timestamp := clock w0 |}]
  /\ savedState (snd (replay o w)) = Some text
  /\ sent (snd (replay o w)) = sent w0
  /\ exists evs, trace (snd (replay o w)) = trace w ++ evs
                 /\ Forall (fun ev => isWrite ev = false) evs.
Proof.
  intros Hopt Hload Hok Hdata Hoff. cbv zeta.
  pose proof Hload as Hframe. apply fetchGameState_frame in Hframe.
  destruct Hframe as ((_ & Hon & _) & (Hq & Hc) & evs & Htr & Hread).
  rewrite replay_optimistic_run by exact Hopt.
  rewrite Hload, Hok, Hdata. cbv zeta. rewrite Hon, Hoff. cbn [negb]. simpl_world.
  split; [reflexivity|]. split; [rewrite Hq, Hc; reflexivity|].
  split; [reflexivity|]. split; [reflexivity|].
  exists (evs ++ [Cached (JSON_stringify (optimisticState o current))]).
  rewrite Htr, app_assoc. split; [reflexivity|].
  apply Forall_app. split; [exact Hread|]. constructor; [reflexivity | constructor].
Qed.

Lemma applyUpgrades_snoc (ps : Parts) (upgrades : list (PartKey * Z)) (part : PartKey) (l : Z) :
  applyUpgrades ps (upgrades ++ [(part, l)]) = setLevel (applyUpgrades ps upgrades) part l.
Proof. unfold applyUpgrades. rewrite fold_left_app. reflexivity. Qed.

Lemma lastRequested_snoc (upgrades : list (PartKey * Z)) (p part : PartKey) (l : Z) :
  lastRequested (upgrades ++ [(p, l)]) part
  = if PartKey_eqb p part then Some l else lastRequested upgrades part.
Proof. unfold lastRequested. rewrite fold_left_app. reflexivity. Qed.

(** X19.  A batch of upgrades sets each part to the level of its last entry
    and leaves the parts it does not mention as they were; the empty batch
    changes nothing. *)
Theorem applyUpgrades_last_entry_wins (ps : Parts) (upgrades : list (PartKey * Z))
    (part : PartKey) :
  level (applyUpgrades ps upgrades) part
  = match lastRequested upgrades part with
    | Some l => l
    | None => level ps part
    end.
Proof.
  induction upgrades as [|[p l] upgrades IH] using rev_ind; [reflexivity|].
  rewrite applyUpgrades_snoc, lastRequested_snoc, level_setLevel.
  destruct (PartKey_eqb p part); [reflexivity | exact IH].
Qed.



(** *** The queue *)

Lemma insertByTimestamp_perm (x : QueuedOperation num) (l : list (QueuedOperation num)) :
  Permutation (insertByTimestamp x l) (x :: l).
Proof.
  induction l as [|y l IH]; cbn [insertByTimestamp]; [apply Permutation_refl|].
  destruct (timestamp x <=? timestamp y); [apply Permutation_refl|].
  eapply Permutation_trans; [apply perm_skip, IH | apply perm_swap].
Qed.

Lemma insertByTimestamp_filter (t : Z) (x : QueuedOperation num)
    (l : list (QueuedOperation num)) :
  filter (fun o => timestamp o =? t) (insertByTimestamp x l)
  = filter (fun o => timestamp o =? t) (x :: l).
Proof.
  induction l as [|y l IH]; cbn [insertByTimestamp]; [reflexivity|].
  destruct (timestamp x <=? timestamp y) eqn:Hle; [reflexivity|].
  apply Z.leb_gt in Hle.
  cbn [filter] in *. rewrite IH.
  destruct (timestamp x =? t) eqn:Ex; destruct (timestamp y =? t) eqn:Ey; try reflexivity.
  apply Z.eqb_eq in Ex, Ey. lia.
Qed.

(** X21.  The replay order is a stable sort of the queue by enqueue
    timestamp: it is sorted, it holds the same operations, and operations with
    equal timestamps keep their queue order. *)
Theorem sortByTimestamp_stable_sort (queue : list (QueuedOperation num)) :
  Sorted (fun a b => timestamp a <= timestamp b) (sortByTimestamp queue)
  /\ Permutation (sortByTimestamp queue) queue
  /\ forall t, filter (fun o => timestamp o =? t) (sortByTimestamp queue)
               = filter (fun o => timestamp o =? t) queue.
Proof.
  split; [apply sortByTimestamp_sorted|]. split.
  - induction queue as [|x queue IH]; cbn [sortByTimestamp fold_right];
      [apply Permutation_refl|].
    eapply Permutation_trans; [apply insertByTimestamp_perm | apply perm_skip, IH].
  - intros t. induction queue as [|x queue IH]; cbn [sortByTimestamp fold_right];
      [reflexivity|].
    rewrite insertByTimestamp_filter. fold (sortByTimestamp queue).
    cbn [filter]. rewrite IH. reflexivity.
Qed.

(** X20.  [processQueue] does nothing while offline or with an empty queue;
    online it leaves the queue empty and the connectivity flag set, whatever
    the replays returned. *)
Theorem processQueue_all_or_nothing (w : World) :
  (onLine w = false \/ operationQueue w = [] -> processQueue w = (Normal tt, w))
  /\ (onLine w = true ->
      operationQueue (snd (processQueue w)) = []
      /\ onLine (snd (processQueue w)) = true).
Proof.
  split.
  - unfold processQueue. intros [-> | ->]; [reflexivity|].
    cbn [List.length Nat.eqb]. rewrite orb_true_r. reflexivity.
  - intros Hon. unfold processQueue. rewrite Hon. cbn [negb orb].
    destruct (operationQueue w) as [|o q] eqn:Hq; [cbn; auto|].
    cbn [List.length Nat.eqb]. rewrite <- Hq.
    destruct (processQueue_loop_online (sortByTimestamp (operationQueue w)) w Hon)
      as (_ & Hon' & ->).
    split; [|exact Hon'].
    apply filter_none. intros x Hx.
    apply negb_false_iff. unfold replayed. apply existsb_exists.
    exists x. split; [apply sortByTimestamp_In; exact Hx | apply Nat.eqb_refl].
Qed.

End SyncMore.

(** ** More on the save behind the wrapper *)

Section TimedMore.

Context {num : Type}.

Local Abbreviation Wrapper := (Debounced (GameStateWithVersion num) (ApiResponse unit)).

(** X22.  A save that the server accepts is what the next offline load
    returns.  When [saveProgress] returns the cache is as its load left it;
    once the write has run, five seconds after the call, and the server has
    accepted it, the write settles with a plain success, the cache holds the
    submitted state (the loaded version plus one), and a load that gets no
    reply in a browser with that token and cache returns exactly it. *)
Theorem accepted_save_is_loaded_offline
    (state : GameState num) (d : Wrapper) (w w0 w1 w2 w3 : World num)
    (currentState : ApiResponse (GameStateWithVersion num))
    (current : GameStateWithVersion num) (tok : string) (reply : Json num) :
  fetchGameState w = (Normal currentState, w0) ->
  success currentState = true ->
  data currentState = Some current ->
  timerId d = None ->
  clock w0 + SAVE_DEBOUNCE_TIME <= clock w1 ->
  truthy (token w1) = Some tok ->
  retryWithBackoff (axios (saveRequest tok (nextVersion state current)))
    MAX_RETRY_ATTEMPTS w1 = (Normal reply, w2) ->
  token w3 = token w1 ->
  savedState w3 = Some (JSON_stringify (nextVersion state current)) ->
  silent (network w3) (sent w3) ->
  let call := Timed.saveProgress state d w in
  let write := Timed.saveTimer (wrapper call) w1 in
  world call = w0
  /\ result (wrapper write) = Some (Normal (succeeded None))
  /\ savedState (world write) = Some (JSON_stringify (nextVersion state current))
  /\ fst (fetchGameState w3) = Normal (succeeded (Some (nextVersion state current))).
Proof.
  intros Hload Hok Hdata Htimer Hlater Htok Hwrite Htoken Hcache Hsilent. cbv zeta.
  rewrite (@saveProgress_call num state d w w0 currentState current Hload Hok Hdata Htimer).
  unfold wrapper, world. cbn [fst snd].
  split; [reflexivity|].
  rewrite saveTimer_writes
    with (state := nextVersion state current)
         (due := clock w0 + SAVE_DEBOUNCE_TIME) (called := clock w0);
    [ | reflexivity | reflexivity | exact Hlater | reflexivity | exact Hlater ].
  cbn [fst snd result].
  rewrite debouncedSave_run. cbv zeta. rewrite Htok, Hwrite. cbn [fst snd].
  split; [reflexivity|]. split; [reflexivity|].
  apply (@offline_load_returns_cache num w3 tok
           (JsonState (fields (nextVersion state current))
              (Some (version (nextVersion state current))))
           (nextVersion state current)).
  - rewrite Htoken. exact Htok.
  - exact Hcache.
  - reflexivity.
  - exact Hsilent.
Qed.

(** X23.  What the caller of [saveProgress] gets.  After a failed load, the
    failure 'Failed to fetch current state', the wrapper untouched.  After a
    successful load, unless a timer is pending and overdue, the write does not
    run at the call: the caller gets what the wrapper holds from the write
    before ([undefined] when there was none), nothing is sent or queued, and
    the wrapper keeps the state for the timer. *)
Theorem saveProgress_resolves_with_previous_write
    (state : GameState num) (d : Wrapper) (w w0 : World num)
    (currentState : ApiResponse (GameStateWithVersion num)) :
  fetchGameState w = (Normal currentState, w0) ->
  let call := Timed.saveProgress state d w in
  (success currentState = false \/ data currentState = None ->
   call = (Normal (Some (failed "Failed to fetch current state")), d, w0))
  /\ (forall current,
        success currentState = true ->
        data currentState = Some current ->
        timerId d = None
        \/ shouldInvoke SAVE_DEBOUNCE_TIME Timed.saveOptions d (clock w0) = false ->
        outcome call = resolved (result d)
        /\ world call = w0
        /\ result (wrapper call) = result d
        /\ lastArgs (wrapper call) = Some (nextVersion state current)
        /\ lastCallTime (wrapper call) = Some (clock w0)
        /\ timerId (wrapper call)
           = Some (match timerId d with
                   | Some due => due
                   | None => clock w0 + SAVE_DEBOUNCE_TIME
                   end)).
Proof.
  intros Hload. cbv zeta. split.
  - intros Hfailed.
    unfold Timed.saveProgress, then_, catch_, lift, unit_, adopt.
    rewrite Hload.
    destruct Hfailed as [-> | Hnone]; [reflexivity|].
    rewrite Hnone. destruct (success currentState); reflexivity.
  - intros current Hok Hdata Hquiet.
    unfold Timed.saveProgress, then_, catch_, lift, unit_, adopt.
    rewrite Hload, Hok, Hdata. cbv zeta.
    unfold Timed.debouncedSave, debounced, leadingEdge, setTimeout. cbv zeta.
    fold (nextVersion state current).
    destruct (timerId d) as [due|] eqn:Htimer.
    + destruct Hquiet as [Hnone | ->]; [discriminate Hnone|].
      unfold outcome, wrapper, world. cbn. repeat split.
    + destruct (shouldInvoke SAVE_DEBOUNCE_TIME Timed.saveOptions d (clock w0));
        unfold outcome, wrapper, world; cbn; repeat split.
Qed.


(** X25.  A burst keeps its last state.  Two saves less than 5 s apart, the
    first made after a quiet time (no timer pending, and 5 s or more since
    the call before, if any): the timer set by the first call finds the second
    call too recent, writes nothing and is set again for 5 s after the second
    call; when that comes due the write runs once, on the state of the second
    call. *)
Theorem burst_writes_last_state
    (first second : GameState num) (d : Wrapper) (w w0 w' w0' w1 w2 : World num)
    (currentState currentState' : ApiResponse (GameStateWithVersion num))
    (current current' : GameStateWithVersion num) :
  fetchGameState w = (Normal currentState, w0) ->
  success currentState = true ->
  data currentState = Some current ->
  fetchGameState w' = (Normal currentState', w0') ->
  success currentState' = true ->
  data currentState' = Some current' ->
  timerId d = None ->
  shouldInvoke SAVE_DEBOUNCE_TIME Timed.saveOptions d (clock w0) = true ->
  clock w0 <= clock w0' < clock w0 + SAVE_DEBOUNCE_TIME ->
  clock w0 + SAVE_DEBOUNCE_TIME <= clock w1 < clock w0' + SAVE_DEBOUNCE_TIME ->
  clock w0' + SAVE_DEBOUNCE_TIME <= clock w2 ->
  let call1 := Timed.saveProgress first d w in
  let call2 := Timed.saveProgress second (wrapper call1) w' in
  let early := Timed.saveTimer (wrapper call2) w1 in
  let late := Timed.saveTimer (wrapper early) w2 in
  (world call1 = w0 /\ world call2 = w0')
  /\ (world early = w1
      /\ timerId (wrapper early) = Some (clock w0' + SAVE_DEBOUNCE_TIME)
      /\ lastArgs (wrapper early) = Some (nextVersion second current'))
  /\ (world late = snd (debouncedSave (nextVersion second current') w2)
      /\ result (wrapper late)
         = Some (fst (debouncedSave (nextVersion second current') w2))
      /\ lastArgs (wrapper late) = None
      /\ timerId (wrapper late) = None).
Proof.
  intros Hload Hok Hdata Hload' Hok' Hdata' Htimer Hlead Hburst Hearly Hlate.
  cbv zeta.
  rewrite (@saveProgress_call num first d w w0 currentState current Hload Hok Hdata Htimer).
  rewrite Hlead.
  set (d1 := {| lastArgs := Some (nextVersion first current); result := result d;
                timerId := Some (clock w0 + SAVE_DEBOUNCE_TIME);
                lastCallTime := Some (clock w0); lastInvokeTime := clock w0 |}).
  change (wrapper (resolved (result d), d1, w0)) with d1.
  change (world (resolved (result d), d1, w0)) with w0.
  assert (Hquiet : shouldInvoke SAVE_DEBOUNCE_TIME Timed.saveOptions d1 (clock w0') = false).
  { unfold shouldInvoke.
    cbn [lastCallTime lastInvokeTime d1 maxing Timed.saveOptions maxWait option_map].
    unfold SAVE_DEBOUNCE_TIME in *.
    repeat (apply orb_false_iff; split);
      [apply Z.leb_gt | apply Z.ltb_ge | apply Z.leb_gt]; lia. }
  rewrite (@saveProgress_call_pending num second d1 w' w0' currentState' current'
             (clock w0 + SAVE_DEBOUNCE_TIME) Hload' Hok' Hdata' eq_refl Hquiet).
  set (d2 := {| lastArgs := Some (nextVersion second current'); result := result d1;
                timerId := Some (clock w0 + SAVE_DEBOUNCE_TIME);
                lastCallTime := Some (clock w0'); lastInvokeTime := lastInvokeTime d1 |}).
  change (wrapper (resolved (result d1), d2, w0')) with d2.
  change (world (resolved (result d1), d2, w0')) with w0'.
  assert (Hquiet2 : shouldInvoke SAVE_DEBOUNCE_TIME Timed.saveOptions d2 (clock w1) = false).
  { unfold shouldInvoke.
    cbn [lastCallTime lastInvokeTime d1 d2 maxing Timed.saveOptions maxWait option_map].
    unfold SAVE_DEBOUNCE_TIME in *.
    repeat (apply orb_false_iff; split);
      [apply Z.leb_gt | apply Z.ltb_ge | apply Z.leb_gt]; lia. }
  assert (Hleft : clock w1
                  + Z.max 0 (remainingWait SAVE_DEBOUNCE_TIME Timed.saveOptions d2 (clock w1))
                  = clock w0' + SAVE_DEBOUNCE_TIME).
  { unfold remainingWait.
    cbn [lastCallTime lastInvokeTime d1 d2 maxing Timed.saveOptions maxWait option_map].
    unfold SAVE_DEBOUNCE_TIME in *. lia. }
  rewrite (@saveTimer_rearms num d2 w1 (clock w0 + SAVE_DEBOUNCE_TIME) eq_refl
             (proj1 Hearly) Hquiet2).
  rewrite Hleft.
  set (d3 := {| lastArgs := lastArgs d2; result := result d2;
                timerId := Some (clock w0' + SAVE_DEBOUNCE_TIME);
                lastCallTime := lastCallTime d2; lastInvokeTime := lastInvokeTime d2 |}).
  change (wrapper (Normal tt, d3, w1)) with d3.
  change (world (Normal tt, d3, w1)) with w1.
  rewrite saveTimer_writes
    with (state := nextVersion second current')
         (due := clock w0' + SAVE_DEBOUNCE_TIME) (called := clock w0');
    [ | reflexivity | reflexivity | exact Hlate | reflexivity | exact Hlate ].
  unfold wrapper, world. cbn [fst snd lastArgs result timerId d3 d2].
  repeat split.
Qed.

End TimedMore.

(** ** The further properties at concrete browsers *)

Import Cases.

Lemma scripted_nothing_silent (from : nat) : silent (scripted []) from.
Proof.
  intros i _. unfold scripted. destruct (from + i)%nat; reflexivity.
Qed.

(** X11 at an operation that throws a plain error. *)
Lemma retry_only_connectivity_failures_witness :
  let w := browser true None [] [] in
  retryWithBackoff (throw (A:=unit) (Error "boom"%string)) MAX_RETRY_ATTEMPTS w
  = (Thrown (Error "boom"%string), w).
Proof.
  cbv zeta.
  apply (@retry_only_connectivity_failures Q unit (throw (Error "boom"%string))
           MAX_RETRY_ATTEMPTS (browser true None [] [])).
  intros e E. injection E as <-. reflexivity.
Defined.

(** X13 at an offline browser that holds a valid cache and no token. *)
Lemma without_token_nothing_happens_witness :
  let w := browserOf None false (Some serverCopy) [] in
  saveProgress localState w
  = (Normal (failed "Failed to fetch current state"%string), w)
  /\ replay (upgrade Cpu 2) w
     = (Normal (failed "Failed to fetch current state"%string), w).
Proof.
  cbv zeta.
  destruct (@without_token_nothing_happens Q (browserOf None false (Some serverCopy) [])
              localState (upgrade Cpu 2) [] eq_refl)
    as (_ & Hsave & Hreplay & _).
  split; [exact Hsave | exact Hreplay].
Defined.

(** X14 at a browser with a valid cache whose server answers 500. *)
Lemma answered_load_never_falls_back_witness :
  let w := browserOf (Some "secret"%string) true (Some serverCopy) [serverError] in
  fst (fetchGameState w) = Normal (failed "Request failed with status code 500"%string)
  /\ savedState (snd (fetchGameState w)) = Some serverCopy.
Proof.
  cbv zeta.
  pose (w := browserOf (Some "secret"%string) true (Some serverCopy) [serverError]).
  destruct (@answered_load_never_falls_back Q w "secret"%string 500 JsonOther
              eq_refl eq_refl)
    as (Hstatus & _ & Hcache).
  fold w. rewrite (Hstatus eq_refl). split; [reflexivity | exact Hcache].
Defined.

(** X15 at a load answered by the server, then a load without connection. *)
Lemma offline_load_repeats_last_load_witness :
  let w := browser true None [] [loaded] in
  let w2 := browserOf (Some "secret"%string) false (savedState (snd (fetchGameState w))) [] in
  fst (fetchGameState w2) = Normal (succeeded (Some serverState)).
Proof.
  cbv zeta.
  pose (w := browser true None [] [loaded]).
  assert (Hload : fetchGameState w
                  = (Normal (succeeded (Some serverState)), snd (fetchGameState w)))
    by (vm_compute; reflexivity).
  apply (@offline_load_repeats_last_load Q w (snd (fetchGameState w))
           (browserOf (Some "secret"%string) false (savedState (snd (fetchGameState w))) [])
           (succeeded (Some serverState)) Hload eq_refl).
  - reflexivity.
  - reflexivity.
  - apply scripted_nothing_silent.
Defined.

(** X17 at an offline upgrade of the cpu, the load served from the cache. *)
Lemma offline_mutation_is_queued_witness :
  let w := browserOf (Some "secret"%string) false (Some serverCopy) [] in
  fst (replay (upgrade Cpu 2) w) = Normal (queued "Upgrade queued for sync"%string)
  /\ operationQueue (snd (replay (upgrade Cpu 2) w))
     = [{| ident := 0; op := upgrade Cpu 2; timestamp := 11000 |}].
Proof.
  cbv zeta.
  pose (w := browserOf (Some "secret"%string) false (Some serverCopy) []).
  assert (Hload : fetchGameState w
                  = (Normal (succeeded (Some serverState)), snd (fetchGameState w)))
    by (vm_compute; reflexivity).
  destruct (@offline_mutation_is_queued Q (upgrade Cpu 2) w (snd (fetchGameState w))
              (succeeded (Some serverState)) serverState
              eq_refl Hload eq_refl eq_refl eq_refl)
    as (Hrun & Hqueue & _).
  fold w. split; [rewrite Hrun; reflexivity | rewrite Hqueue; vm_compute; reflexivity].
Defined.



(** X22 at a save the server accepts five seconds after the call, then a
    load without connection. *)
Lemma accepted_save_is_loaded_offline_witness :
  let w := browser true None [] [loaded; accepted] in
  let saved := nextVersion localState serverState in
  let call := Timed.saveProgress localState (newDebounced _ _) w in
  let write := Timed.saveTimer (wrapper call) (elapse SAVE_DEBOUNCE_TIME (world call)) in
  let w3 := browserOf (Some "secret"%string) false (Some (JSON_stringify saved)) [] in
  result (wrapper write) = Some (Normal (succeeded None))
  /\ savedState (world write) = Some (JSON_stringify saved)
  /\ fst (fetchGameState w3) = Normal (succeeded (Some saved))
  /\ version saved = 8.
Proof.
  cbv zeta.
  pose (w := browser true None [] [loaded; accepted]).
  pose (w0 := snd (fetchGameState w)).
  pose (w1 := elapse SAVE_DEBOUNCE_TIME w0).
  pose (w2 := snd (retryWithBackoff
                     (axios (saveRequest "secret"%string (nextVersion localState serverState)))
                     MAX_RETRY_ATTEMPTS w1)).
  assert (Hload : fetchGameState w = (Normal (succeeded (Some serverState)), w0))
    by (vm_compute; reflexivity).
  assert (Hlater : clock w0 + SAVE_DEBOUNCE_TIME <= clock w1) by (vm_compute; discriminate).
  assert (Hwrite : retryWithBackoff
                     (axios (saveRequest "secret"%string (nextVersion localState serverState)))
                     MAX_RETRY_ATTEMPTS w1
                   = (Normal JsonOther, w2))
    by (vm_compute; reflexivity).
  destruct (@accepted_save_is_loaded_offline Q localState (newDebounced _ _) w w0 w1 w2
              (browserOf (Some "secret"%string) false
                 (Some (JSON_stringify (nextVersion localState serverState))) [])
              (succeeded (Some serverState)) serverState "secret"%string JsonOther
              Hload eq_refl eq_refl eq_refl Hlater eq_refl Hwrite eq_refl eq_refl
              (scripted_nothing_silent 0))
    as (Hworld & Hresult & Hsaved & Hreload).
  fold w. rewrite Hworld. fold w1.
  split; [exact Hresult|]. split; [exact Hsaved|]. split; [exact Hreload | reflexivity].
Defined.

(** X23 at the first save after the page has loaded: the caller gets
    [undefined] and only the load has gone out. *)
Lemma saveProgress_resolves_with_previous_write_witness :
  let w := browser true None [] [loaded; accepted] in
  let call := Timed.saveProgress localState (newDebounced _ _) w in
  outcome call = Normal None /\ sent (world call) = 1%nat.
Proof.
  cbv zeta.
  pose (w := browser true None [] [loaded; accepted]).
  pose (w0 := snd (fetchGameState w)).
  assert (Hload : fetchGameState w = (Normal (succeeded (Some serverState)), w0))
    by (vm_compute; reflexivity).
  destruct (@saveProgress_resolves_with_previous_write Q localState (newDebounced _ _) w w0
              (succeeded (Some serverState)) Hload) as [_ Hcall].
  destruct (Hcall serverState eq_refl eq_refl (or_introl eq_refl))
    as (Houtcome & Hworld & _).
  fold w. rewrite Houtcome, Hworld. split; reflexivity.
Defined.


(** X25 at two saves one second apart: one write goes out, six seconds after
    the first save, and it carries the state of the second. *)
Lemma burst_writes_last_state_witness :
  let w := browser true None [] [loaded; loaded; accepted] in
  let second := fields serverState in
  let call1 := Timed.saveProgress localState (newDebounced _ _) w in
  let call2 := Timed.saveProgress second (wrapper call1) (elapse 1000 (world call1)) in
  let early := Timed.saveTimer (wrapper call2) (elapse 4000 (world call2)) in
  let late := Timed.saveTimer (wrapper early) (elapse 1000 (world early)) in
  sent (world early) = 2%nat
  /\ sent (world late) = 3%nat
  /\ savedState (world late) = Some (JSON_stringify (nextVersion second serverState))
  /\ result (wrapper late) = Some (Normal (succeeded None)).
Proof.
  cbv zeta.
  pose (w := browser true None [] [loaded; loaded; accepted]).
  pose (w0 := snd (fetchGameState w)).
  pose (w' := elapse 1000 w0).
  pose (w0' := snd (fetchGameState w')).
  pose (w1 := elapse 4000 w0').
  pose (w2 := elapse 1000 w1).
  assert (Hload : fetchGameState w = (Normal (succeeded (Some serverState)), w0))
    by (vm_compute; reflexivity).
  assert (Hload' : fetchGameState w' = (Normal (succeeded (Some serverState)), w0'))
    by (vm_compute; reflexivity).
  assert (Hburst : clock w0 <= clock w0' < clock w0 + SAVE_DEBOUNCE_TIME)
    by (vm_compute; split; [discriminate | reflexivity]).
  assert (Hearly : clock w0 + SAVE_DEBOUNCE_TIME <= clock w1 < clock w0' + SAVE_DEBOUNCE_TIME)
    by (vm_compute; split; [discriminate | reflexivity]).
  assert (Hlate : clock w0' + SAVE_DEBOUNCE_TIME <= clock w2)
    by (vm_compute; discriminate).
  destruct (@burst_writes_last_state Q localState (fields serverState) (newDebounced _ _)
              w w0 w' w0' w1 w2
              (succeeded (Some serverState)) (succeeded (Some serverState))
              serverState serverState
              Hload eq_refl eq_refl Hload' eq_refl eq_refl eq_refl eq_refl
              Hburst Hearly Hlate)
    as ((Hw0 & Hw0') & (Hw1 & _) & (Hw2 & Hresult & _)).
  fold w. rewrite Hw0. fold w'. rewrite Hw0'. fold w1. rewrite Hw1. fold w2.
  rewrite Hw2, Hresult. vm_compute. repeat split.
Defined.

(** Two queued operations with the same content are two objects: replaying
    one removes that one only. *)
Example dequeue_is_by_identity :
  operationQueue
    (snd (dequeue (twin 0)
            {| token := None; savedState := None; operationQueue := [twin 0; twin 1];
               onLine := true; clock := 0; network := scripted []; sent := 0;
               created := 2; trace := [] |}))
  = [twin 1].
Proof. reflexivity. Qed.
